(** * Accept-header API versioning: a model of [version_middleware.py]

    The development embeds the version extractor
    ([AcceptHeaderVersionMiddleware]), the versioned route
    ([VersionedAPIRoute]), the tagging decorator ([VersionedAPIRouter.version])
    and the example application of the module, and states the properties of
    the specification over them.

    Conventions.
    - A Python [bytes] value and a Python [str] whose code points are below
      256 are both sequences of 8-bit characters, i.e. Rocq [string]s; the
      [latin1] codec maps byte [b] to code point [b], so decoding is the
      identity on that representation.
    - A [dict] with string keys is a [gmap string _].
    - Exceptions are values of [exn]; code that reads only returns a
      [result]; code that writes to the scope or talks to the client runs in
      the monad [M] (state = scope dictionary and the effects seen so far). *)

From Stdlib Require Import Ascii String.
From stdpp Require Import gmap strings list fin_maps.

(** ** Python's [re], for the fragment the accept pattern can reach *)

Module Re.

Local Open Scope char_scope.

Inductive citem :=
| CChar (c : ascii)
| CRange (lo hi : ascii).

Inductive quant := QStar | QPlus | QOpt.

Inductive regex :=
| RLit (c : ascii)
| RAny
| RBol
| REol
| RSet (neg : bool) (items : list citem)
| RGroup (n : nat) (r : regex)
| REps
| RCat (r1 r2 : regex)
| RAlt (r1 r2 : regex)
| RRepeat (q : quant) (greedy : bool) (r : regex).

(** *** Parsing a pattern string

    The parser reads the pattern one character at a time, keeping the open
    groups on a stack, as [re._parser] does with its recursive descent.
    Constructs outside the modelled fragment (letter and digit escapes,
    [(?...)] extensions, counted repeats, possessive quantifiers) yield
    [Unsupported]; patterns Python rejects yield [ReError]. *)

Inductive parse_result :=
| Parsed (r : regex) (ngroups : nat)
| ReError (msg : string)
| Unsupported.

Record frame := {
  fr_alts : list regex;   (* finished alternatives, latest first *)
  fr_seq : list regex;    (* items of the current alternative, latest first *)
  fr_group : nat          (* number of the group this frame builds *)
}.

Record set_state := {
  ss_neg : bool;
  ss_items : list citem;      (* latest first *)
  ss_pend : option ascii;     (* last code read, not yet appended *)
  ss_dash : bool;             (* a '-' was read after [ss_pend] *)
  ss_esc : bool;              (* a backslash was read *)
  ss_fresh : bool             (* nothing read yet after '[' *)
}.

Inductive mode :=
| MNormal
| MEscape
| MOpen
| MSet (ss : set_state).

Record pstate := {
  ps_stack : list frame;
  ps_cur : frame;
  ps_next : nat;
  ps_mode : mode
}.

Definition is_alnum (a : ascii) : bool :=
  let n := nat_of_ascii a in
  ((48 <=? n)%nat && (n <=? 57)%nat) || ((65 <=? n)%nat && (n <=? 90)%nat)
  || ((97 <=? n)%nat && (n <=? 122)%nat).

(** The characters with a meaning of their own in a pattern. *)
Definition is_special (a : ascii) : bool :=
  match a with
  | "." | "^" | "$" | "*" | "+" | "?" | "{" | "}" | "[" | "]" | "\" | "|"
  | "(" | ")" => true
  | _ => false
  end.

Definition cat_list (l : list regex) (tl : regex) : regex :=
  fold_right RCat tl l.

Definition seq_of (items_rev : list regex) : regex :=
  cat_list (rev items_rev) REps.

Fixpoint alt_list (l : list regex) : regex :=
  match l with
  | [] => REps
  | [r] => r
  | r :: l' => RAlt r (alt_list l')
  end.

Definition build (f : frame) : regex :=
  alt_list (rev (seq_of (fr_seq f) :: fr_alts f)).

Definition push_item (r : regex) (st : pstate) : pstate :=
  {| ps_stack := ps_stack st;
     ps_cur := {| fr_alts := fr_alts (ps_cur st);
                  fr_seq := r :: fr_seq (ps_cur st);
                  fr_group := fr_group (ps_cur st) |};
     ps_next := ps_next st;
     ps_mode := MNormal |}.

Definition set_mode (md : mode) (st : pstate) : pstate :=
  {| ps_stack := ps_stack st; ps_cur := ps_cur st;
     ps_next := ps_next st; ps_mode := md |}.

Definition step_result : Type := pstate + parse_result.

(** Can the item match the empty string?  The captures of a [*] or [+]
    whose body can are left out of the model. *)
Fixpoint nullable (r : regex) : bool :=
  match r with
  | RLit _ | RAny | RSet _ _ => false
  | RBol | REol | REps => true
  | RGroup _ r' => nullable r'
  | RCat r1 r2 => nullable r1 && nullable r2
  | RAlt r1 r2 => nullable r1 || nullable r2
  | RRepeat QPlus _ r' => nullable r'
  | RRepeat _ _ _ => true
  end.

Definition quantify (a : ascii) (st : pstate) : step_result :=
  let q := match a with "*" => QStar | "+" => QPlus | _ => QOpt end in
  let cur := ps_cur st in
  let put item rest :=
    inl {| ps_stack := ps_stack st;
           ps_cur := {| fr_alts := fr_alts cur; fr_seq := item :: rest;
                        fr_group := fr_group cur |};
           ps_next := ps_next st; ps_mode := MNormal |} in
  match fr_seq cur with
  | [] => inr (ReError "nothing to repeat")
  | RBol :: _ | REol :: _ => inr (ReError "nothing to repeat")
  | RRepeat q0 g r :: rest =>
      match a with
      | "?" => if g then put (RRepeat q0 false r) rest
               else inr (ReError "multiple repeat")
      | "+" => if g then inr Unsupported
               else inr (ReError "multiple repeat")
      | _ => inr (ReError "multiple repeat")
      end
  | item :: rest =>
      match q with
      | QOpt => put (RRepeat q true item) rest
      | _ => if nullable item then inr Unsupported
             else put (RRepeat q true item) rest
      end
  end.

Definition open_group (st : pstate) : pstate :=
  {| ps_stack := ps_cur st :: ps_stack st;
     ps_cur := {| fr_alts := []; fr_seq := []; fr_group := ps_next st |};
     ps_next := S (ps_next st);
     ps_mode := MOpen |}.

Definition close_group (st : pstate) : step_result :=
  match ps_stack st with
  | [] => inr (ReError "unbalanced parenthesis")
  | parent :: stk =>
      inl {| ps_stack := stk;
             ps_cur := {| fr_alts := fr_alts parent;
                          fr_seq := RGroup (fr_group (ps_cur st))
                                           (build (ps_cur st))
                                    :: fr_seq parent;
                          fr_group := fr_group parent |};
             ps_next := ps_next st; ps_mode := MNormal |}
  end.

Definition next_alt (st : pstate) : pstate :=
  {| ps_stack := ps_stack st;
     ps_cur := {| fr_alts := seq_of (fr_seq (ps_cur st))
                             :: fr_alts (ps_cur st);
                  fr_seq := [];
                  fr_group := fr_group (ps_cur st) |};
     ps_next := ps_next st; ps_mode := MNormal |}.

Definition fresh_set : set_state :=
  {| ss_neg := false; ss_items := []; ss_pend := None; ss_dash := false;
     ss_esc := false; ss_fresh := true |}.

Definition step_normal (a : ascii) (st : pstate) : step_result :=
  match a with
  | "\" => inl (set_mode MEscape st)
  | "(" => inl (open_group st)
  | ")" => close_group st
  | "|" => inl (next_alt st)
  | "*" | "+" | "?" => quantify a st
  | "[" => inl (set_mode (MSet fresh_set) st)
  | "." => inl (push_item RAny st)
  | "^" => inl (push_item RBol st)
  | "$" => inl (push_item REol st)
  | "{" => inr Unsupported
  | _ => inl (push_item (RLit a) st)
  end.

(** Inside a character set. *)
Definition set_close (neg : bool) (items : list citem) (st : pstate)
  : step_result :=
  inl (push_item (RSet neg (rev items)) st).

Definition set_range (ss : set_state) (lo hi : ascii) (st : pstate)
  : step_result :=
  if (nat_of_ascii hi <? nat_of_ascii lo)%nat
  then inr (ReError "bad character range")
  else inl (set_mode (MSet {| ss_neg := ss_neg ss;
                              ss_items := CRange lo hi :: ss_items ss;
                              ss_pend := None; ss_dash := false;
                              ss_esc := false; ss_fresh := false |}) st).

(** [a] is the token read at the head of the loop over the set's members;
    [items] are the members appended so far. *)
Definition set_this (neg : bool) (items : list citem) (a : ascii)
    (st : pstate) : step_result :=
  let upd pend esc :=
    inl (set_mode (MSet {| ss_neg := neg; ss_items := items;
                           ss_pend := pend; ss_dash := false;
                           ss_esc := esc; ss_fresh := false |}) st) in
  match a with
  | "]" => match items with
           | [] => upd (Some a) false
           | _ => set_close neg items st
           end
  | "\" => upd None true
  | _ => upd (Some a) false
  end.

Definition step_set (ss : set_state) (a : ascii) (st : pstate)
  : step_result :=
  if ss_esc ss then
    if is_alnum a then inr Unsupported
    else
      match ss_pend ss, ss_dash ss with
      | Some lo, true => set_range ss lo a st
      | _, _ =>
          inl (set_mode (MSet {| ss_neg := ss_neg ss;
                                 ss_items := ss_items ss;
                                 ss_pend := Some a; ss_dash := false;
                                 ss_esc := false; ss_fresh := false |}) st)
      end
  else if ss_fresh ss && Ascii.eqb a "^" then
    inl (set_mode (MSet {| ss_neg := true; ss_items := []; ss_pend := None;
                           ss_dash := false; ss_esc := false;
                           ss_fresh := false |}) st)
  else
    match ss_pend ss, ss_dash ss with
    | Some lo, true =>
        match a with
        | "]" => set_close (ss_neg ss)
                   (CChar "-" :: CChar lo :: ss_items ss) st
        | "\" =>
            inl (set_mode (MSet {| ss_neg := ss_neg ss;
                                   ss_items := ss_items ss;
                                   ss_pend := Some lo; ss_dash := true;
                                   ss_esc := true; ss_fresh := false |}) st)
        | _ => set_range ss lo a st
        end
    | Some p, false =>
        match a with
        | "-" =>
            inl (set_mode (MSet {| ss_neg := ss_neg ss;
                                   ss_items := ss_items ss;
                                   ss_pend := Some p; ss_dash := true;
                                   ss_esc := false; ss_fresh := false |}) st)
        | _ => set_this (ss_neg ss) (CChar p :: ss_items ss) a st
        end
    | None, _ => set_this (ss_neg ss) (ss_items ss) a st
    end.

Definition step (a : ascii) (st : pstate) : step_result :=
  match ps_mode st with
  | MNormal => step_normal a st
  | MOpen => match a with
             | "?" => inr Unsupported
             | _ => step_normal a st
             end
  | MEscape => if is_alnum a then inr Unsupported
               else inl (push_item (RLit a) st)
  | MSet ss => step_set ss a st
  end.

Definition finish (st : pstate) : parse_result :=
  match ps_mode st with
  | MEscape => ReError "bad escape (end of pattern)"
  | MSet _ => ReError "unterminated character set"
  | MNormal | MOpen =>
      match ps_stack st with
      | [] => Parsed (build (ps_cur st)) (ps_next st - 1)
      | _ :: _ => ReError "missing ), unterminated subpattern"
      end
  end.

Fixpoint parse_chars (s : string) (st : pstate) : parse_result :=
  match s with
  | EmptyString => finish st
  | String a s' =>
      match step a st with
      | inl st' => parse_chars s' st'
      | inr res => res
      end
  end.

Definition init : pstate :=
  {| ps_stack := [];
     ps_cur := {| fr_alts := []; fr_seq := []; fr_group := 0 |};
     ps_next := 1; ps_mode := MNormal |}.

Definition parse (pattern : string) : parse_result :=
  parse_chars pattern init.

(** *** Matching: a backtracking matcher in continuation-passing style *)

(** Captured groups, latest binding first. *)
Definition caps : Type := list (nat * string).

Definition kont : Type := nat → string → caps → option caps.

Definition newline : ascii := "010".

Definition in_item (b : ascii) (it : citem) : bool :=
  match it with
  | CChar c => Ascii.eqb c b
  | CRange lo hi =>
      (nat_of_ascii lo <=? nat_of_ascii b)%nat
      && (nat_of_ascii b <=? nat_of_ascii hi)%nat
  end.

Definition in_set (items : list citem) (b : ascii) : bool :=
  existsb (in_item b) items.

(** [$] without MULTILINE: end of the string, or just before a final
    newline. *)
Definition at_end (s : string) : bool :=
  match s with
  | EmptyString => true
  | String b EmptyString => Ascii.eqb b newline
  | _ => false
  end.

(** Zero or more iterations of [mr]; an iteration that consumes nothing is
    abandoned, as the engine's empty-match check does. *)
Definition star_loop (mr : nat → string → caps → kont → option caps)
    (greedy : bool) (k : kont) : nat → nat → string → caps → option caps :=
  fix loop (fuel : nat) (pos : nat) (s : string) (c : caps) :=
    match fuel with
    | 0 => k pos s c
    | S fuel' =>
        let iter (_ : unit) :=
          mr pos s c (λ pos' s' c',
                      if (pos <? pos')%nat then loop fuel' pos' s' c' else None) in
        if greedy then
          match iter () with
          | Some x => Some x
          | None => k pos s c
          end
        else
          match k pos s c with
          | Some x => Some x
          | None => iter ()
          end
    end.

Fixpoint m (r : regex) (pos : nat) (s : string) (c : caps) (k : kont)
  {struct r} : option caps :=
  match r with
  | RLit a =>
      match s with
      | String b s' => if Ascii.eqb a b then k (S pos) s' c else None
      | EmptyString => None
      end
  | RAny =>
      match s with
      | String b s' => if Ascii.eqb b newline then None else k (S pos) s' c
      | EmptyString => None
      end
  | RBol => if (pos =? 0)%nat then k pos s c else None
  | REol => if at_end s then k pos s c else None
  | RSet neg items =>
      match s with
      | String b s' =>
          if xorb neg (in_set items b) then k (S pos) s' c else None
      | EmptyString => None
      end
  | RGroup n r' =>
      m r' pos s c
        (λ pos' s' c', k pos' s' ((n, String.substring 0 (pos' - pos) s) :: c'))
  | REps => k pos s c
  | RCat r1 r2 => m r1 pos s c (λ pos' s' c', m r2 pos' s' c' k)
  | RAlt r1 r2 =>
      match m r1 pos s c k with
      | Some x => Some x
      | None => m r2 pos s c k
      end
  | RRepeat QStar g r' =>
      star_loop (m r') g k (S (String.length s)) pos s c
  | RRepeat QPlus g r' =>
      m r' pos s c
        (λ pos' s' c', star_loop (m r') g k (S (String.length s')) pos' s' c')
  | RRepeat QOpt g r' =>
      if g then
        match m r' pos s c k with
        | Some x => Some x
        | None => k pos s c
        end
      else
        match k pos s c with
        | Some x => Some x
        | None => m r' pos s c k
        end
  end.

(** [re.search] scans the start positions from left to right. *)
Fixpoint search_from (r : regex) (pos : nat) (s : string) : option caps :=
  match m r pos s [] (λ _ _ c, Some c) with
  | Some c => Some c
  | None =>
      match s with
      | EmptyString => None
      | String _ s' => search_from r (S pos) s'
      end
  end.

Fixpoint lookup_group (n : nat) (c : caps) : option string :=
  match c with
  | [] => None
  | (i, v) :: c' => if (i =? n)%nat then Some v else lookup_group n c'
  end.

(** A match object: the number of groups of the pattern and the groups
    that took part in the match. *)
Record match_obj := { mo_ngroups : nat; mo_caps : caps }.

Inductive search_result :=
| SearchError (msg : string)      (* re.error *)
| SearchUnsupported               (* pattern outside the modelled fragment *)
| SearchNone                      (* [None] *)
| SearchMatch (mo : match_obj).

Definition search (pattern : string) (s : string) : search_result :=
  match parse pattern with
  | ReError msg => SearchError msg
  | Unsupported => SearchUnsupported
  | Parsed r n =>
      match search_from r 0 s with
      | None => SearchNone
      | Some c => SearchMatch {| mo_ngroups := n; mo_caps := c |}
      end
  end.

End Re.

(** ** Python values, dictionaries and exceptions *)

Abbreviation bytes := string.

(** [b.decode("latin1")]: byte [n] becomes code point [n]. *)
Definition decode_latin1 (b : bytes) : string := b.

Inductive pyval :=
| VStr (s : string)
| VHeaders (hs : list (bytes * bytes))   (* a list of pairs of bytes *)
| VObj (id : nat) (text : string).       (* any other object, with its str() *)

Inductive exn :=
| KeyError (key : string)
| AttributeError (attr : string)
| ValueError
| IndexError
| ReError (msg : string)
| HTTPException (status : Z) (detail : string)
| OutsideModel.          (* not an exception: the run left the modelled fragment *)

Inductive result (A : Type) :=
| Ok (a : A)
| Raise (e : exn).
Arguments Ok {A} a.
Arguments Raise {A} e.

#[global] Instance result_ret : MRet result := λ A a, Ok a.
#[global] Instance result_bind : MBind result :=
  λ A B f r, match r with Ok a => f a | Raise e => Raise e end.

Module Py.

Local Open Scope char_scope.

Definition dquote : ascii := "034".
Definition squote : ascii := "039".

Fixpoint contains (a : ascii) (s : string) : bool :=
  match s with
  | EmptyString => false
  | String b s' => Ascii.eqb a b || contains a s'
  end.

Definition hex_digit (n : nat) : ascii :=
  nth n ["0"; "1"; "2"; "3"; "4"; "5"; "6"; "7"; "8"; "9";
         "a"; "b"; "c"; "d"; "e"; "f"] "0".

Definition escape_byte (q : ascii) (b : ascii) : string :=
  let n := nat_of_ascii b in
  if Ascii.eqb b q || Ascii.eqb b "\" then String "\" (String b EmptyString)
  else if Ascii.eqb b "009" then String "\" (String "t" EmptyString)
  else if Ascii.eqb b "010" then String "\" (String "n" EmptyString)
  else if Ascii.eqb b "013" then String "\" (String "r" EmptyString)
  else if (n <? 32)%nat || (127 <=? n)%nat then
    String "\" (String "x" (String (hex_digit (n / 16))
                              (String (hex_digit (n mod 16)) EmptyString)))
  else String b EmptyString.

Fixpoint escape_bytes (q : ascii) (s : bytes) : string :=
  match s with
  | EmptyString => EmptyString
  | String b s' => escape_byte q b +:+ escape_bytes q s'
  end.

(** [repr] of a [bytes] object. *)
Definition bytes_repr (s : bytes) : string :=
  let q := if contains squote s && negb (contains dquote s)
           then dquote else squote in
  String "b" (String q (escape_bytes q s +:+ String q EmptyString)).

Definition pair_repr (p : bytes * bytes) : string :=
  "(" +:+ bytes_repr p.1 +:+ ", " +:+ bytes_repr p.2 +:+ ")".

Fixpoint join (sep : string) (l : list string) : string :=
  match l with
  | [] => ""
  | [x] => x
  | x :: l' => x +:+ sep +:+ join sep l'
  end.

(** [str(v)], also what an f-string field prints. *)
Definition str (v : pyval) : string :=
  match v with
  | VStr s => s
  | VHeaders hs => "[" +:+ join ", " (map pair_repr hs) +:+ "]"
  | VObj _ text => text
  end.

(** [v == w]. *)
Definition eqb (v w : pyval) : bool :=
  match v, w with
  | VStr s, VStr t => bool_decide (s = t)
  | VHeaders hs, VHeaders ht => bool_decide (hs = ht)
  | VObj i _, VObj j _ => bool_decide (i = j)
  | _, _ => false
  end.

(** [v in (w1, ..., wn)]. *)
Definition in_tuple (v : pyval) (ws : list pyval) : bool :=
  existsb (eqb v) ws.

(** [d[k]] on a dictionary. *)
Definition getitem (d : gmap string pyval) (k : string) : result pyval :=
  match d !! k with
  | Some v => Ok v
  | None => Raise (KeyError k)
  end.

(** [dict(v)] for a header list: later pairs overwrite earlier ones. *)
Definition dict_of_pairs (hs : list (bytes * bytes)) : gmap bytes bytes :=
  foldl (λ d kv, <[kv.1 := kv.2]> d) ∅ hs.

Definition dict (v : pyval) : result (gmap bytes bytes) :=
  match v with
  | VHeaders hs => Ok (dict_of_pairs hs)
  | VStr EmptyString => Ok ∅
  | VStr (String _ _) => Raise ValueError
  | VObj _ _ => Raise OutsideModel
  end.

End Py.

(** ** The request being processed *)

Inductive body :=
| PlainText (text : string)
| JsonDetail (detail : string).     (* the JSON object with one key, detail *)

(** What the client and the handlers observe. *)
Inductive effect :=
| EResponse (status : Z) (b : body)
| EEndpoint (f : nat).                (* the body of endpoint function [f] ran *)

Record world := {
  w_scope : gmap string pyval;      (* the ASGI scope, mutated in place *)
  w_trace : list effect             (* effects so far, oldest first *)
}.

Definition M (A : Type) : Type := world → world * result A.

#[global] Instance M_ret : MRet M := λ A a w, (w, Ok a).
#[global] Instance M_bind : MBind M :=
  λ A B f c w,
    match c w with
    | (w', Ok a) => f a w'
    | (w', Raise e) => (w', Raise e)
    end.

Definition raise {A} (e : exn) : M A := λ w, (w, Raise e).
Definition lift {A} (r : result A) : M A := λ w, (w, r).
Definition get_scope : M (gmap string pyval) := λ w, (w, Ok (w_scope w)).
Definition scope_set (k : string) (v : pyval) : M unit :=
  λ w, ({| w_scope := <[k := v]> (w_scope w); w_trace := w_trace w |}, Ok tt).
Definition scope_update (d : gmap string pyval) : M unit :=
  λ w, ({| w_scope := d ∪ w_scope w; w_trace := w_trace w |}, Ok tt).
Definition emit (e : effect) : M unit :=
  λ w, ({| w_scope := w_scope w; w_trace := w_trace w ++ [e] |}, Ok tt).
Definition scope_get (k : string) : M pyval :=
  sc ← get_scope; lift (Py.getitem sc k).

(** ** [AcceptHeaderVersionMiddleware] *)

Record AcceptHeaderVersionMiddleware := {
  mw_app : M unit;                (* the wrapped ASGI application *)
  latest_version : string;
  accept_regex : string
}.

(** [__init__]: the vendor prefix is spliced into the pattern text. *)
Definition mw_init (app : M unit) (vendor_prefix latest_version : string)
  : AcceptHeaderVersionMiddleware :=
  {| mw_app := app;
     latest_version := latest_version;
     accept_regex :=
       "^application/vnd\." +:+ vendor_prefix +:+ "\.v([0-9]+)\+.*" |}.

(** [match.group(1)], then the assignment guarded by [is not None]. *)
Definition store_group (mo : Re.match_obj) : M unit :=
  if (1 <=? Re.mo_ngroups mo)%nat then
    match Re.lookup_group 1 (Re.mo_caps mo) with
    | Some api_version => scope_set "requested_version" (VStr api_version)
    | None => mret tt
    end
  else raise IndexError.

(** The body of [__call__] up to the call of the wrapped application. *)
Definition mw_extract (self : AcceptHeaderVersionMiddleware) : M unit :=
  ty ← scope_get "type";
  if Py.in_tuple ty [VStr "http"; VStr "websocket"] then
    hv ← scope_get "headers";
    headers ← lift (Py.dict hv);
    scope_set "latest_version" (VStr (latest_version self));;
    scope_set "requested_version" (VStr (latest_version self));;
    match headers !! "accept" with
    | Some value =>
        let accept_header := decode_latin1 value in
        match Re.search (accept_regex self) accept_header with
        | Re.SearchError msg => raise (ReError msg)
        | Re.SearchUnsupported => raise OutsideModel
        | Re.SearchNone => mret tt
        | Re.SearchMatch mo => store_group mo
        end
    | None => mret tt
    end
  else mret tt.

Definition mw_call (self : AcceptHeaderVersionMiddleware) : M unit :=
  mw_extract self;; mw_app self.

(** ** Function objects and the [version] decorator *)

(** The heap maps a function object to its attribute dictionary. *)
Definition attrs_of (h : gmap nat (gmap string pyval)) (f : nat)
  : gmap string pyval :=
  default ∅ (h !! f).

(** [getattr(f, name)]. *)
Definition getattr (h : gmap nat (gmap string pyval)) (f : nat) (name : string)
  : result pyval :=
  match attrs_of h f !! name with
  | Some v => Ok v
  | None => Raise (AttributeError name)
  end.

(** [router.version(api_version)(func)]: sets the attribute on the function
    object and returns the same object. *)
Definition version (api_version : string) (func : nat)
    (h : gmap nat (gmap string pyval)) : gmap nat (gmap string pyval) :=
  <[func := <["__api_version__" := VStr api_version]> (attrs_of h func)]> h.

(** ** [VersionedAPIRoute] *)

Inductive Match := NONE | PARTIAL | FULL.

#[global] Instance Match_eq_dec : EqDecision Match.
Proof. solve_decision. Defined.

Record VersionedAPIRoute := {
  path : string;
  methods : list string;
  endpoint : nat
}.

Section Route.

Variable h : gmap nat (gmap string pyval).

Definition endpoint_version (self : VersionedAPIRoute) : result string :=
  v ← getattr h (endpoint self) "__api_version__"; mret (Py.str v).

Definition is_version_matching (self : VersionedAPIRoute)
    (scope : gmap string pyval) : result bool :=
  requested_version ← Py.getitem scope "requested_version";
  ev ← endpoint_version self;
  let is_latest := bool_decide (ev = "latest") in
  left ←
    (if is_latest then
       lv ← Py.getitem scope "latest_version";
       mret (Py.eqb requested_version lv)
     else mret false);
  if left : bool then mret true
  else
    ev' ← endpoint_version self;
    mret (Py.eqb (VStr ev') requested_version).

(** The part of [matches] that follows the call of the parent class. *)
Definition version_gate (self : VersionedAPIRoute)
    (scope : gmap string pyval) (sup : Match * gmap string pyval)
  : result (Match * gmap string pyval) :=
  let '(mt, child_scope) := sup in
  if bool_decide (mt = NONE) || bool_decide (mt = PARTIAL)
  then mret (mt, child_scope)
  else
    ok ← is_version_matching self scope;
    if ok : bool then mret (FULL, child_scope)
    else mret (PARTIAL, child_scope).

(** Starlette's [Route.matches], for a path without parameters: the path
    is compared as a whole and the parameters stay as they were.  The
    compiled pattern of the parent class accepts more (path parameters, a
    newline after the path); the statements use this definition where the
    request path is the declared one, or take the result as a hypothesis. *)
Definition super_matches (self : VersionedAPIRoute)
    (scope : gmap string pyval) : result (Match * gmap string pyval) :=
  ty ← Py.getitem scope "type";
  if Py.eqb ty (VStr "http") then
    p ← Py.getitem scope "path";
    if Py.eqb p (VStr (path self)) then
      let child_scope : gmap string pyval :=
        {[ "endpoint" := VObj (endpoint self) "<function>" ]} in
      match methods self with
      | [] => mret (FULL, child_scope)
      | _ =>
          mth ← Py.getitem scope "method";
          if Py.in_tuple mth (VStr <$> methods self)
          then mret (FULL, child_scope)
          else mret (PARTIAL, child_scope)
      end
    else mret (NONE, ∅)
  else mret (NONE, ∅).

Definition matches (self : VersionedAPIRoute) (scope : gmap string pyval)
  : result (Match * gmap string pyval) :=
  sup ← super_matches self scope;
  version_gate self scope sup.

(** Starlette's [Route.handle]: the method check, then the endpoint. *)
Definition super_handle (self : VersionedAPIRoute) : M unit :=
  scope ← get_scope;
  allowed ←
    match methods self with
    | [] => mret true
    | _ => mth ← scope_get "method";
           mret (Py.in_tuple mth (VStr <$> methods self))
    end;
  if allowed : bool then emit (EEndpoint (endpoint self))
  else if bool_decide (is_Some (scope !! "app"))
       then raise (HTTPException 405 "Method Not Allowed")
       else emit (EResponse 405 (PlainText "Method Not Allowed")).

Definition not_acceptable_detail (scope : gmap string pyval) : result string :=
  rv ← Py.getitem scope "requested_version";
  lv ← Py.getitem scope "latest_version";
  mret ("Requested version " +:+ Py.str rv +:+ " does not exist. "
        +:+ "Latest available version is " +:+ Py.str lv +:+ ".").

Definition handle (self : VersionedAPIRoute) : M unit :=
  scope ← get_scope;
  ok ← lift (is_version_matching self scope);
  (if negb ok then
     (if bool_decide (is_Some (scope !! "app")) then
        detail ← lift (not_acceptable_detail scope);
        raise (HTTPException 406 detail)
      else mret (EResponse 406 (PlainText "Not Acceptable")))
     ≫= emit
   else mret tt);;
  super_handle self.

(** ** The router and the application around it *)

(** Starlette's default handler when no route matched. *)
Definition not_found : M unit :=
  scope ← get_scope;
  if bool_decide (is_Some (scope !! "app"))
  then raise (HTTPException 404 "Not Found")
  else emit (EResponse 404 (PlainText "Not Found")).

(** Starlette's [Router.app]: the first full match is handled; failing
    that, the first partial match; failing that, the default.  What the
    router does besides (its own entry in the scope, the redirect it tries
    for a trailing slash when no route matched at all) is left out; the
    statements are about requests that some route matches. *)
Fixpoint router_loop (routes : list VersionedAPIRoute)
    (partial : option (VersionedAPIRoute * gmap string pyval)) : M unit :=
  match routes with
  | [] =>
      match partial with
      | Some (route, partial_scope) =>
          scope_update partial_scope;; handle route
      | None => not_found
      end
  | route :: routes' =>
      scope ← get_scope;
      mc ← lift (matches route scope);
      let '(mt, child_scope) := mc in
      match mt with
      | FULL => scope_update child_scope;; handle route
      | PARTIAL =>
          router_loop routes'
            (match partial with
             | None => Some (route, child_scope)
             | Some _ => partial
             end)
      | NONE => router_loop routes' partial
      end
  end.

Definition router_app (routes : list VersionedAPIRoute) : M unit :=
  router_loop routes None.

End Route.

(** The exception middleware around the router: an [HTTPException] becomes
    a JSON response that carries its detail. *)
Definition exception_middleware (app : M unit) : M unit :=
  λ w,
    match app w with
    | (w', Raise (HTTPException status detail)) =>
        emit (EResponse status (JsonDetail detail)) w'
    | r => r
    end.

(** ** The module's router and application *)

Definition foo_v1 : nat := 1.
Definition foo_v2 : nat := 2.
Definition foo_v3 : nat := 3.
Definition foo_latest : nat := 4.

Record registry := {
  rg_heap : gmap nat (gmap string pyval);
  rg_routes : list VersionedAPIRoute
}.

(** [@router.get(path)] above [@router.version(v)] above [def func]. *)
Definition register_get (p v : string) (func : nat) (rg : registry)
  : registry :=
  let h1 := <[func := ∅]> (rg_heap rg) in       (* def func *)
  let h2 := version v func h1 in                (* the inner decorator *)
  {| rg_heap := h2;
     rg_routes := rg_routes rg
                  ++ [{| path := p; methods := ["GET"]; endpoint := func |}] |}.

Definition router : registry :=
  register_get "/foo" "latest" foo_latest
    (register_get "/foo" "3" foo_v3
       (register_get "/foo" "2" foo_v2
          (register_get "/foo" "1" foo_v1
             {| rg_heap := ∅; rg_routes := [] |}))).

(** [app.include_router(router)] re-registers every route of the router
    with its class and endpoint; [add_middleware] puts the extractor around
    the exception middleware and the router; calling the application first
    stores the application object in the scope.  The routes the framework
    adds for its documentation pages are left out; the statements are about
    the path /foo. *)
Definition app_stack (rg : registry) (vendor_prefix latest : string) : M unit :=
  scope_set "app" (VObj 0 "<FastAPI>");;
  mw_call (mw_init (exception_middleware (router_app (rg_heap rg) (rg_routes rg)))
                   vendor_prefix latest).

Definition app : M unit := app_stack router "mytestapp" "4".

(** A GET request for [p] with the given headers, as the server builds it. *)
Definition http_get (p : string) (hs : list (bytes * bytes)) : world :=
  {| w_scope := {[ "type" := VStr "http"; "method" := VStr "GET";
                   "path" := VStr p; "headers" := VHeaders hs ]};
     w_trace := [] |}.

Definition accept (value : bytes) : list (bytes * bytes) := [("accept", value)].

(** ** Vocabulary of the statements and proofs *)

Fixpoint lits (s : string) : list Re.regex :=
  match s with
  | EmptyString => []
  | String a s' => Re.RLit a :: lits s'
  end.

Fixpoint plain (s : string) : bool :=
  match s with
  | EmptyString => true
  | String a s' => negb (Re.is_special a) && plain s'
  end.

Definition is_digit (a : ascii) : bool :=
  (48 <=? nat_of_ascii a)%nat && (nat_of_ascii a <=? 57)%nat.

Fixpoint digits (s : string) : bool :=
  match s with
  | EmptyString => true
  | String a s' => is_digit a && digits s'
  end.

(** Running the parser over a piece of the pattern. *)
Fixpoint run (s : string) (st : Re.pstate) : Re.step_result :=
  match s with
  | EmptyString => inl st
  | String a s' =>
      match Re.step a st with
      | inl st' => run s' st'
      | inr res => inr res
      end
  end.

Definition add_lits (p : string) (st : Re.pstate) : Re.pstate :=
  {| Re.ps_stack := Re.ps_stack st;
     Re.ps_cur := {| Re.fr_alts := Re.fr_alts (Re.ps_cur st);
                     Re.fr_seq := rev (lits p) ++ Re.fr_seq (Re.ps_cur st);
                     Re.fr_group := Re.fr_group (Re.ps_cur st) |};
     Re.ps_next := Re.ps_next st;
     Re.ps_mode := Re.MNormal |}.

(** The pattern the middleware builds from a prefix without special
    characters. *)
Definition digit_set : Re.regex := Re.RSet false [Re.CRange "0" "9"].

Definition accept_tail : list Re.regex :=
  [Re.RLit "."; Re.RLit "v";
   Re.RGroup 1 (Re.RCat (Re.RRepeat Re.QPlus true digit_set) Re.REps);
   Re.RLit "+"; Re.RRepeat Re.QStar true Re.RAny].

Definition accept_re (p : string) : Re.regex :=
  Re.cat_list (Re.RBol :: lits "application/vnd." ++ lits p ++ accept_tail)
              Re.REps.

(** The literal shape the specification gives to a versioned Accept value. *)
Definition vendor_form (p s : string) : Prop :=
  ∃ n suffix, n ≠ "" ∧ digits n = true
              ∧ s = "application/vnd." +:+ p +:+ ".v" +:+ n +:+ "+" +:+ suffix.

Definition k_done : Re.kont := λ _ _ c, Some c.

Definition prefix_text (p : string) : string :=
  "application/vnd." +:+ p +:+ ".v".

Definition version_group : Re.regex :=
  Re.RGroup 1 (Re.RCat (Re.RRepeat Re.QPlus true digit_set) Re.REps).

Definition after_group : Re.regex :=
  Re.cat_list [Re.RLit "+"; Re.RRepeat Re.QStar true Re.RAny] Re.REps.

Definition with_versions (v : string) (latest : string)
    (sc : gmap string pyval) : gmap string pyval :=
  <["requested_version" := VStr v]> (<["latest_version" := VStr latest]> sc).

Definition route_v1 : VersionedAPIRoute :=
  {| path := "/foo"; methods := ["GET"]; endpoint := foo_v1 |}.

(** What the client saw and how the call ended. *)
Definition outcome (r : world * result unit) : list effect * result unit :=
  (w_trace r.1, r.2).

(** The child scope a route hands to the router, the method check of the
    parent class, and the text of the 406 detail. *)
Definition child_scope_of (r : VersionedAPIRoute) : gmap string pyval :=
  {[ "endpoint" := VObj (endpoint r) "<function>" ]}.

Definition method_allowed (r : VersionedAPIRoute) (mth : pyval) : bool :=
  match methods r with
  | [] => true
  | _ => Py.in_tuple mth (VStr <$> methods r)
  end.

Definition not_acceptable_message (rv lv : pyval) : string :=
  "Requested version " +:+ Py.str rv
  +:+ " does not exist. Latest available version is " +:+ Py.str lv +:+ ".".

Example re_demo_1 :
  Re.search "^application/vnd\.mytestapp\.v([0-9]+)\+.*"
            "application/vnd.mytestapp.v42+json"
  = Re.SearchMatch {| Re.mo_ngroups := 1; Re.mo_caps := [(1, "42")] |}.
Proof. vm_compute. reflexivity. Qed.

(** * Facts about the pattern engine *)

Lemma string_app_cons (x : ascii) (a b : string) :
  String x a +:+ b = String x (a +:+ b).
Proof. reflexivity. Qed.

Lemma string_app_assoc (a b c : string) : (a +:+ b) +:+ c = a +:+ b +:+ c.
Proof.
  induction a as [|x a IH]; [done |].
  by rewrite !string_app_cons, IH.
Qed.

Lemma string_app_length (a b : string) :
  String.length (a +:+ b) = String.length a + String.length b.
Proof.
  induction a as [|x a IH]; [done |].
  rewrite string_app_cons. simpl. by rewrite IH.
Qed.

Lemma substring_app (a b : string) :
  String.substring 0 (String.length a) (a +:+ b) = a.
Proof.
  induction a as [|x a IH]; [by destruct b |].
  rewrite string_app_cons. simpl. by rewrite IH.
Qed.

Lemma lits_app (a b : string) : lits (a +:+ b) = lits a ++ lits b.
Proof.
  induction a as [|x a IH]; [done |].
  rewrite string_app_cons. simpl. by rewrite IH.
Qed.

Lemma run_app (a b : string) (st : Re.pstate) :
  run (a +:+ b) st
  = match run a st with inl st' => run b st' | inr res => inr res end.
Proof.
  revert st. induction a as [|x a IH]; intros st; [done |].
  rewrite string_app_cons. simpl.
  destruct (Re.step x st); [apply IH | done].
Qed.

Lemma parse_chars_run (s : string) (st : Re.pstate) :
  Re.parse_chars s st
  = match run s st with inl st' => Re.finish st' | inr res => res end.
Proof.
  revert st. induction s as [|x s IH]; intros st; simpl; [done |].
  destruct (Re.step x st); [apply IH | done].
Qed.

Lemma step_plain (a : ascii) (st : Re.pstate) :
  Re.is_special a = false → Re.ps_mode st = Re.MNormal →
  Re.step a st = inl (Re.push_item (Re.RLit a) st).
Proof.
  intros Ha Hm. unfold Re.step. rewrite Hm. unfold Re.step_normal.
  destruct a as [[] [] [] [] [] [] [] []]; try discriminate Ha; reflexivity.
Qed.

Lemma run_plain (p : string) (st : Re.pstate) :
  plain p = true → Re.ps_mode st = Re.MNormal → run p st = inl (add_lits p st).
Proof.
  revert st. induction p as [|a p IH]; intros st Hp Hm.
  - destruct st as [stk [al sq g] nx md]. simpl in *. by subst.
  - simpl in Hp. apply andb_true_iff in Hp as [Ha Hp].
    apply negb_true_iff in Ha. simpl. rewrite (step_plain a st Ha Hm).
    rewrite IH; [| done | done]. f_equal. unfold add_lits. simpl.
    by rewrite <- app_assoc.
Qed.

(** A prefix without special characters is spliced in as a run of literals:
    the pattern parses to [accept_re]. *)
Lemma parse_accept_regex (p : string) :
  plain p = true →
  Re.parse ("^application/vnd\." +:+ p +:+ "\.v([0-9]+)\+.*")
  = Re.Parsed (accept_re p) 1.
Proof.
  intros Hp. unfold Re.parse. rewrite parse_chars_run, run_app.
  change (run "^application/vnd\." Re.init)
    with (inl (B := Re.parse_result)
            (add_lits "application/vnd." (Re.push_item Re.RBol Re.init))).
  cbv iota. rewrite run_app, run_plain; [| done | done].
  transitivity
    (Re.Parsed
       (Re.seq_of (rev accept_tail ++ rev (lits p)
                   ++ rev (Re.RBol :: lits "application/vnd."))) 1);
    [vm_compute; reflexivity |].
  unfold accept_re, Re.seq_of.
  rewrite !rev_app_distr, !rev_involutive, <- app_assoc. reflexivity.
Qed.

(** ** Matching the accept pattern *)

Lemma accept_re_split (p : string) :
  accept_re p
  = Re.RCat Re.RBol
      (Re.cat_list (lits (prefix_text p)) (Re.RCat version_group after_group)).
Proof.
  unfold accept_re, prefix_text, Re.cat_list. rewrite !lits_app.
  simpl. f_equal. rewrite !foldr_app. reflexivity.
Qed.

Lemma m_lits (p : string) (t : Re.regex) pos s c k :
  Re.m (Re.cat_list (lits p) t) pos (p +:+ s) c k
  = Re.m t (pos + String.length p) s c k.
Proof.
  revert pos. induction p as [|a p IH]; intros pos.
  - simpl. by rewrite Nat.add_0_r.
  - rewrite string_app_cons. simpl. rewrite Ascii.eqb_refl.
    unfold Re.cat_list in IH. rewrite IH. f_equal. lia.
Qed.

Lemma m_lits_inv (p : string) (t : Re.regex) pos s c k x :
  Re.m (Re.cat_list (lits p) t) pos s c k = Some x →
  ∃ s', s = p +:+ s' ∧ Re.m t (pos + String.length p) s' c k = Some x.
Proof.
  revert pos s. induction p as [|a p IH]; intros pos s H.
  - exists s. simpl in *. by rewrite Nat.add_0_r.
  - simpl in H. destruct s as [|b s]; [done |].
    destruct (Ascii.eqb a b) eqn:Hab; [| done].
    apply Ascii.eqb_eq in Hab as <-.
    apply IH in H as (s' & -> & H). exists s'. split; [done |].
    simpl. by rewrite <- Nat.add_succ_comm.
Qed.

Lemma star_loop_S mr g k fuel pos s c :
  Re.star_loop mr g k (S fuel) pos s c
  = let iter :=
      mr pos s c (λ pos' s' c',
                  if (pos <? pos')%nat
                  then Re.star_loop mr g k fuel pos' s' c' else None) in
    if g then match iter with Some x => Some x | None => k pos s c end
    else match k pos s c with Some x => Some x | None => iter end.
Proof. reflexivity. Qed.

Lemma m_digit_set pos s c k :
  Re.m digit_set pos s c k
  = match s with
    | String b s' => if is_digit b then k (S pos) s' c else None
    | EmptyString => None
    end.
Proof. destruct s as [|b s]; [done |]. simpl. by rewrite orb_false_r. Qed.

(** The greedy digit loop takes every digit in front of the ['+']. *)
Lemma star_digits (n suffix : string) k fuel pos c y :
  digits n = true → String.length n < fuel →
  k (pos + String.length n) (String "+" suffix) c = Some y →
  Re.star_loop (Re.m digit_set) true k fuel pos (n +:+ String "+" suffix) c
  = Some y.
Proof.
  revert fuel pos. induction n as [|d n IH]; intros fuel pos Hd Hf Hk.
  - destruct fuel as [|fuel]; [simpl in Hf; lia |].
    rewrite star_loop_S. cbv zeta. rewrite m_digit_set. simpl.
    simpl in Hk. by rewrite Nat.add_0_r in Hk.
  - destruct fuel as [|fuel]; [simpl in Hf; lia |].
    simpl in Hd. apply andb_true_iff in Hd as [Hd1 Hd2].
    rewrite star_loop_S. cbv zeta. rewrite string_app_cons, m_digit_set, Hd1.
    assert ((pos <? S pos)%nat = true) as -> by (apply Nat.ltb_lt; lia).
    rewrite (IH fuel (S pos)); [done | done | simpl in Hf; lia |].
    simpl in Hk. by rewrite <- Nat.add_succ_comm in Hk.
Qed.

Lemma star_digits_inv (s : string) k fuel pos c y :
  Re.star_loop (Re.m digit_set) true k fuel pos s c = Some y →
  ∃ n s', s = n +:+ s' ∧ digits n = true
          ∧ k (pos + String.length n) s' c = Some y.
Proof.
  revert pos s. induction fuel as [|fuel IH]; intros pos s H.
  - exists "", s. simpl in *. by rewrite Nat.add_0_r.
  - rewrite star_loop_S in H. cbv zeta in H. rewrite m_digit_set in H.
    destruct s as [|b s].
    + exists "", "". simpl. by rewrite Nat.add_0_r.
    + destruct (is_digit b) eqn:Hb.
      * assert ((pos <? S pos)%nat = true) as Hlt by (apply Nat.ltb_lt; lia).
        rewrite Hlt in H.
        destruct (Re.star_loop (Re.m digit_set) true k fuel (S pos) s c)
          as [x|] eqn:Hl.
        -- injection H as ->. apply IH in Hl as (n & s' & -> & Hn & Hk).
           exists (String b n), s'. simpl. rewrite Hb, Hn.
           by rewrite <- Nat.add_succ_comm.
        -- exists "", (String b s). simpl. by rewrite Nat.add_0_r.
      * exists "", (String b s). simpl. by rewrite Nat.add_0_r.
Qed.

Lemma star_any_total k fuel pos s c y :
  (∀ pos' s', k pos' s' c = Some y) →
  Re.star_loop (Re.m Re.RAny) true k fuel pos s c = Some y.
Proof.
  intros Hk. revert pos s. induction fuel as [|fuel IH]; intros pos s.
  - apply Hk.
  - rewrite star_loop_S. cbv zeta. simpl.
    destruct s as [|b s]; [apply Hk |].
    destruct (Ascii.eqb b Re.newline); [apply Hk |].
    assert ((pos <? S pos)%nat = true) as -> by (apply Nat.ltb_lt; lia).
    by rewrite IH.
Qed.

Lemma m_after_group pos suffix c :
  Re.m after_group pos (String "+" suffix) c k_done = Some c.
Proof.
  unfold after_group, Re.cat_list. cbn [foldr Re.m].
  rewrite Ascii.eqb_refl. by apply star_any_total.
Qed.

Lemma m_after_group_inv pos s c y :
  Re.m after_group pos s c k_done = Some y → ∃ suffix, s = String "+" suffix.
Proof.
  unfold after_group, Re.cat_list. cbn [foldr Re.m].
  destruct s as [|b s]; [done |].
  destruct (Ascii.eqb "+" b) eqn:Hb; [| done].
  apply Ascii.eqb_eq in Hb as <-. by exists s.
Qed.

Lemma m_version_group (n suffix : string) pos c k y :
  n ≠ "" → digits n = true →
  k (pos + String.length n) (String "+" suffix) ((1, n) :: c) = Some y →
  Re.m version_group pos (n +:+ String "+" suffix) c k = Some y.
Proof.
  intros Hne Hd Hk. destruct n as [|d n]; [done |].
  simpl in Hd. apply andb_true_iff in Hd as [Hd1 Hd2].
  unfold version_group. rewrite string_app_cons.
  cbn [Re.m]. fold digit_set. rewrite m_digit_set, Hd1.
  apply star_digits; [done | rewrite string_app_length; lia |].
  replace (S pos + String.length n - pos) with (String.length (String d n))
    by (simpl; lia).
  rewrite <- string_app_cons, substring_app.
  simpl in Hk. by rewrite <- Nat.add_succ_comm in Hk.
Qed.

Lemma m_version_group_inv (s : string) pos c y :
  Re.m (Re.RCat version_group after_group) pos s c k_done = Some y →
  ∃ n suffix, n ≠ "" ∧ digits n = true ∧ s = n +:+ String "+" suffix.
Proof.
  unfold version_group. cbn [Re.m]. fold digit_set. rewrite m_digit_set.
  destruct s as [|d s]; [done |].
  destruct (is_digit d) eqn:Hd; [| done].
  intros H. apply star_digits_inv in H as (n & s' & -> & Hn & H).
  apply m_after_group_inv in H as [suffix ->].
  exists (String d n), suffix. simpl. by rewrite Hd, Hn.
Qed.

Lemma search_from_eq (r : Re.regex) pos s :
  Re.search_from r pos s
  = match Re.m r pos s [] k_done with
    | Some c => Some c
    | None =>
        match s with
        | EmptyString => None
        | String _ s' => Re.search_from r (S pos) s'
        end
    end.
Proof. destruct s; reflexivity. Qed.

Lemma search_from_bol (r : Re.regex) pos s :
  pos ≠ 0 → Re.search_from (Re.RCat Re.RBol r) pos s = None.
Proof.
  revert pos. induction s as [|b s IH]; intros pos Hp;
    rewrite search_from_eq; cbn [Re.m];
    (destruct pos; [done |]); cbn [Nat.eqb]; [done | by apply IH].
Qed.

(** On a value of the literal shape the pattern matches, and group 1 is the
    digit string. *)
Lemma search_accept_form (p n suffix : string) :
  n ≠ "" → digits n = true →
  Re.search_from (accept_re p) 0 (prefix_text p +:+ n +:+ String "+" suffix)
  = Some [(1, n)].
Proof.
  intros Hne Hd. rewrite search_from_eq.
  assert (Re.m (accept_re p) 0 (prefix_text p +:+ n +:+ String "+" suffix)
            [] k_done = Some [(1, n)]) as ->; [| done].
  rewrite accept_re_split. cbn [Re.m Nat.eqb].
  rewrite m_lits. cbn [Re.m].
  apply m_version_group; [done | done |]. apply m_after_group.
Qed.

Lemma search_accept_inv (p s : string) c :
  Re.search_from (accept_re p) 0 s = Some c →
  ∃ n suffix, n ≠ "" ∧ digits n = true
              ∧ s = prefix_text p +:+ n +:+ String "+" suffix.
Proof.
  intros H.
  assert (Re.m (accept_re p) 0 s [] k_done = Some c) as Hm.
  { rewrite search_from_eq in H.
    destruct (Re.m (accept_re p) 0 s [] k_done) eqn:E; [done |].
    rewrite accept_re_split in H.
    destruct s as [|b s]; [done |]. by rewrite search_from_bol in H. }
  rewrite accept_re_split in Hm. cbn [Re.m Nat.eqb] in Hm.
  apply m_lits_inv in Hm as (s' & -> & Hm).
  apply m_version_group_inv in Hm as (n & suffix & Hne & Hd & ->).
  by exists n, suffix.
Qed.

Lemma search_plain_form (p n suffix : string) :
  plain p = true → n ≠ "" → digits n = true →
  Re.search ("^application/vnd\." +:+ p +:+ "\.v([0-9]+)\+.*")
            ("application/vnd." +:+ p +:+ ".v" +:+ n +:+ "+" +:+ suffix)
  = Re.SearchMatch {| Re.mo_ngroups := 1; Re.mo_caps := [(1, n)] |}.
Proof.
  intros Hp Hne Hd. unfold Re.search. rewrite parse_accept_regex by done.
  replace ("application/vnd." +:+ p +:+ ".v" +:+ n +:+ "+" +:+ suffix)
    with (prefix_text p +:+ n +:+ String "+" suffix)
    by (unfold prefix_text; rewrite !string_app_assoc; reflexivity).
  rewrite search_accept_form; [reflexivity | done | done].
Qed.

Lemma search_plain_inv (p s : string) mo :
  plain p = true →
  Re.search ("^application/vnd\." +:+ p +:+ "\.v([0-9]+)\+.*") s
  = Re.SearchMatch mo →
  vendor_form p s.
Proof.
  intros Hp. unfold Re.search. rewrite parse_accept_regex by done.
  destruct (Re.search_from (accept_re p) 0 s) as [c|] eqn:E; [| done].
  intros _. apply search_accept_inv in E as (n & suffix & Hne & Hd & ->).
  exists n, suffix. split; [done |]. split; [done |].
  unfold prefix_text. rewrite !string_app_assoc. reflexivity.
Qed.

(** With a prefix free of special characters, a value that has not the
    literal shape is not matched. *)
Lemma search_plain_none (p s : string) :
  plain p = true → ¬ vendor_form p s →
  Re.search ("^application/vnd\." +:+ p +:+ "\.v([0-9]+)\+.*") s
  = Re.SearchNone.
Proof.
  intros Hp Hn. unfold Re.search. rewrite parse_accept_regex by done.
  destruct (Re.search_from (accept_re p) 0 s) as [c|] eqn:E; [| done].
  exfalso. apply Hn.
  apply search_accept_inv in E as (n & suffix & Hne & Hd & ->).
  exists n, suffix. split; [done |]. split; [done |].
  unfold prefix_text. rewrite !string_app_assoc. reflexivity.
Qed.

(** With a prefix free of special characters the pattern matches exactly
    the values of the literal shape. *)
Lemma accept_plain_iff (p s : string) :
  plain p = true →
  (∃ mo, Re.search ("^application/vnd\." +:+ p +:+ "\.v([0-9]+)\+.*") s
         = Re.SearchMatch mo)
  ↔ vendor_form p s.
Proof.
  intros Hp. split.
  - intros [mo H]. by apply search_plain_inv with mo.
  - intros (n & suffix & Hne & Hd & ->). eexists.
    by apply search_plain_form.
Qed.

(** * The extractor *)

Ltac run_m :=
  cbv beta iota zeta delta
    [mbind mret M_bind M_ret result_bind result_ret scope_get
     get_scope lift raise scope_set scope_update emit w_scope w_trace
     Py.getitem fst snd].

(** What the extractor does to an http or websocket scope. *)
Lemma mw_extract_http self sc tr ty hs :
  sc !! "type" = Some ty →
  Py.in_tuple ty [VStr "http"; VStr "websocket"] = true →
  sc !! "headers" = Some (VHeaders hs) →
  mw_extract self {| w_scope := sc; w_trace := tr |}
  = let w1 := {| w_scope := with_versions (latest_version self)
                              (latest_version self) sc;
                 w_trace := tr |} in
    match Py.dict_of_pairs hs !! "accept" with
    | Some value =>
        match Re.search (accept_regex self) (decode_latin1 value) with
        | Re.SearchError msg => (w1, Raise (ReError msg))
        | Re.SearchUnsupported => (w1, Raise OutsideModel)
        | Re.SearchNone => (w1, Ok tt)
        | Re.SearchMatch mo => store_group mo w1
        end
    | None => (w1, Ok tt)
    end.
Proof.
  intros Hty Hin Hhs. unfold mw_extract. run_m. rewrite Hty. run_m.
  rewrite Hin. run_m. rewrite Hhs. run_m. unfold Py.dict. run_m.
  unfold with_versions.
  destruct (Py.dict_of_pairs hs !! "accept") as [value|]; [| done].
  by destruct (Re.search (accept_regex self) (decode_latin1 value)).
Qed.

Lemma mw_extract_other self sc tr ty :
  sc !! "type" = Some ty →
  Py.in_tuple ty [VStr "http"; VStr "websocket"] = false →
  mw_extract self {| w_scope := sc; w_trace := tr |}
  = ({| w_scope := sc; w_trace := tr |}, Ok tt).
Proof.
  intros Hty Hin. unfold mw_extract. run_m. rewrite Hty. run_m.
  by rewrite Hin.
Qed.

Lemma store_group_version (n : string) sc tr :
  store_group {| Re.mo_ngroups := 1; Re.mo_caps := [(1, n)] |}
              {| w_scope := sc; w_trace := tr |}
  = ({| w_scope := <["requested_version" := VStr n]> sc; w_trace := tr |},
     Ok tt).
Proof. reflexivity. Qed.

(** With a prefix free of special characters the digits of a value of the
    literal shape are extracted, whatever their number. *)
Lemma extract_plain_prefix app p latest n suffix sc tr ty hs :
  plain p = true → n ≠ "" → digits n = true →
  sc !! "type" = Some ty →
  Py.in_tuple ty [VStr "http"; VStr "websocket"] = true →
  sc !! "headers" = Some (VHeaders hs) →
  Py.dict_of_pairs hs !! "accept"
  = Some ("application/vnd." +:+ p +:+ ".v" +:+ n +:+ "+" +:+ suffix) →
  mw_extract (mw_init app p latest) {| w_scope := sc; w_trace := tr |}
  = ({| w_scope := with_versions n latest sc; w_trace := tr |}, Ok tt).
Proof.
  intros Hp Hne Hd Hty Hin Hhs Hacc.
  rewrite (mw_extract_http _ sc tr ty hs) by done.
  cbv zeta. rewrite Hacc. unfold decode_latin1.
  cbn [accept_regex latest_version mw_init].
  rewrite search_plain_form by done. rewrite store_group_version.
  unfold with_versions. by rewrite insert_insert_eq.
Qed.

Example extract_zero_and_many_digits :
  w_scope (mw_extract (mw_init (mret tt) "mytestapp" "4")
             (http_get "/foo" (accept "application/vnd.mytestapp.v0+json"))).1
    !! "requested_version" = Some (VStr "0")
  ∧ w_scope (mw_extract (mw_init (mret tt) "mytestapp" "4")
               (http_get "/foo"
                  (accept "application/vnd.mytestapp.v0042+xml;q=1"))).1
      !! "requested_version" = Some (VStr "0042").
Proof. split; vm_compute; reflexivity. Qed.

(** When the header list has no accept entry, or the search with the
    middleware's pattern finds nothing in its accept value, the extractor
    finishes without an exception and leaves both version fields equal to
    the configured latest version. *)
Lemma fallback_on_no_match self sc tr ty hs :
  sc !! "type" = Some ty →
  Py.in_tuple ty [VStr "http"; VStr "websocket"] = true →
  sc !! "headers" = Some (VHeaders hs) →
  (Py.dict_of_pairs hs !! "accept" = None
   ∨ ∃ value, Py.dict_of_pairs hs !! "accept" = Some value
              ∧ Re.search (accept_regex self) (decode_latin1 value)
                = Re.SearchNone) →
  mw_extract self {| w_scope := sc; w_trace := tr |}
  = ({| w_scope := with_versions (latest_version self) (latest_version self) sc;
        w_trace := tr |}, Ok tt).
Proof.
  intros Hty Hin Hhs Hacc.
  rewrite (mw_extract_http _ sc tr ty hs) by done. cbv zeta.
  destruct Hacc as [-> | (value & -> & ->)]; reflexivity.
Qed.

(** C5. The fallback is not what happens for every accept value outside
    the vendor shape.  With the vendor prefix [my.app] the value
    [application/vnd.myXapp.v1+json] carries another prefix, yet the
    extractor takes version "1" from it instead of the latest version; with
    the vendor prefix [(] the value [text/html] makes the extractor raise
    the pattern error instead of falling back in silence. *)
Theorem C5_fallback_depends_on_prefix :
  let w := mw_extract (mw_init (mret tt) "my.app" "4")
             (http_get "/foo" (accept "application/vnd.myXapp.v1+json")) in
  let w' := mw_extract (mw_init (mret tt) "(" "4")
              (http_get "/foo" (accept "text/html")) in
  (¬ vendor_form "my.app" "application/vnd.myXapp.v1+json"
   ∧ w.2 = Ok tt
   ∧ w_scope w.1 !! "requested_version" = Some (VStr "1")
   ∧ w_scope w.1 !! "latest_version" = Some (VStr "4"))
  ∧ (¬ vendor_form "(" "text/html"
     ∧ w'.2 = Raise (ReError "missing ), unterminated subpattern")).
Proof.
  split; [split; [| repeat split; vm_compute; reflexivity]
         | split; [| vm_compute; reflexivity]];
    intros (n & suffix & _ & _ & H); vm_compute in H; discriminate H.
Qed.

(** The three kinds of malformed value the specification names, and the
    absent header, on the module's application. *)
Example fallback_examples :
  Forall (λ hs, (mw_extract (mw_init (mret tt) "mytestapp" "4")
                   (http_get "/foo" hs)).2 = Ok tt
                ∧ w_scope (mw_extract (mw_init (mret tt) "mytestapp" "4")
                             (http_get "/foo" hs)).1 !! "requested_version"
                  = Some (VStr "4"))
    [ [];
      accept "application/vnd.other.v2+json";
      accept "application/vnd.mytestapp.v+json";
      accept "application/vnd.mytestapp.v2";
      accept "text/html" ].
Proof. repeat constructor; vm_compute; reflexivity. Qed.

(** C4. With the vendor prefix [a+b] the Accept value
    [application/vnd.a+b.v1+json] has the literal shape, yet the extractor
    leaves [requested_version] at the latest version instead of ["1"]: the
    prefix is read as pattern syntax. *)
Theorem C4_prefix_with_plus_not_extracted :
  let w := mw_extract (mw_init (mret tt) "a+b" "4")
             (http_get "/foo" (accept "application/vnd.a+b.v1+json")) in
  vendor_form "a+b" "application/vnd.a+b.v1+json"
  ∧ w.2 = Ok tt
  ∧ w_scope w.1 !! "requested_version" = Some (VStr "4").
Proof.
  split; [| split; vm_compute; reflexivity].
  exists "1", "json". split; [done |]. split; reflexivity.
Qed.

(** C7. The prefix takes part in the pattern as pattern text.  With prefix
    [my.app] a value that has another character in place of the dot is
    matched; with prefix [a+b] the value that starts with the literal prefix
    is not. *)
Theorem C7_prefix_is_pattern_text :
  (Re.search (accept_regex (mw_init (mret tt) "my.app" "4"))
             "application/vnd.myXapp.v1+json"
   = Re.SearchMatch {| Re.mo_ngroups := 1; Re.mo_caps := [(1, "1")] |}
   ∧ ¬ vendor_form "my.app" "application/vnd.myXapp.v1+json")
  ∧ (Re.search (accept_regex (mw_init (mret tt) "a+b" "4"))
               "application/vnd.a+b.v1+json"
     = Re.SearchNone
     ∧ vendor_form "a+b" "application/vnd.a+b.v1+json").
Proof.
  split; split.
  - vm_compute. reflexivity.
  - intros (n & suffix & _ & _ & H). vm_compute in H. discriminate H.
  - vm_compute. reflexivity.
  - exists "1", "json". split; [done |]. split; reflexivity.
Qed.

(** * The versioned route *)

Lemma is_version_matching_tagged h self sc (V : string) rv :
  endpoint_version h self = Ok V →
  sc !! "requested_version" = Some rv →
  is_version_matching h self sc
  = if bool_decide (V = "latest") then
      lv ← Py.getitem sc "latest_version";
      mret (Py.eqb rv lv || Py.eqb (VStr V) rv)
    else Ok (Py.eqb (VStr V) rv).
Proof.
  intros HV Hrv. unfold is_version_matching, Py.getitem.
  rewrite Hrv, HV. run_m. destruct (bool_decide (V = "latest")); [| done].
  destruct (sc !! "latest_version") as [lv|]; [| done]. run_m.
  by destruct (Py.eqb rv lv).
Qed.

(** The version part of [matches], for any result of the parent class. *)
Lemma version_gate_rule h self sc child :
  (∀ mt, mt ≠ FULL → version_gate h self sc (mt, child) = Ok (mt, child))
  ∧ ∀ V rv lv : string,
      endpoint_version h self = Ok V →
      sc !! "requested_version" = Some (VStr rv) →
      sc !! "latest_version" = Some (VStr lv) →
      (version_gate h self sc (FULL, child) = Ok (FULL, child)
       ↔ (V = "latest" ∧ rv = lv) ∨ V = rv)
      ∧ (¬ ((V = "latest" ∧ rv = lv) ∨ V = rv) →
         version_gate h self sc (FULL, child) = Ok (PARTIAL, child)).
Proof.
  split.
  - intros mt Hmt. unfold version_gate. by destruct mt.
  - intros V rv lv HV Hrv Hlv. unfold version_gate. cbn [bool_decide orb].
    rewrite (bool_decide_eq_false_2 (FULL = NONE)) by done.
    rewrite (bool_decide_eq_false_2 (FULL = PARTIAL)) by done.
    cbn [orb]. rewrite (is_version_matching_tagged h self sc V (VStr rv)) by done.
    unfold Py.getitem. rewrite Hlv. run_m. unfold Py.eqb.
    destruct (decide (V = "latest")) as [HL|HL];
      destruct (decide (rv = lv)) as [Hrl|Hrl];
      destruct (decide (V = rv)) as [HVr|HVr];
      rewrite ?(bool_decide_eq_true_2 _ HL), ?(bool_decide_eq_false_2 _ HL),
        ?(bool_decide_eq_true_2 _ Hrl), ?(bool_decide_eq_false_2 _ Hrl),
        ?(bool_decide_eq_true_2 _ HVr), ?(bool_decide_eq_false_2 _ HVr);
      cbn [orb]; run_m; (split; [split |]); intros; try done;
      try (exfalso; intuition congruence); intuition congruence.
Qed.

(** C2. Whatever the parent class answers for the path, [matches] returns
    a result other than a full match as it is, without looking at versions.
    For a tagged route and a scope that carries both versions, [matches] is
    a full match exactly when the path matched in full and either the
    declared version is "latest" and the requested version equals the latest
    one, or the declared version equals the requested one (as strings); when
    the path matched in full and the rule fails it is a partial match. *)
Theorem C2_matching_rule h self sc mt child :
  super_matches self sc = Ok (mt, child) →
  (mt ≠ FULL → matches h self sc = Ok (mt, child))
  ∧ ∀ V rv lv : string,
      endpoint_version h self = Ok V →
      sc !! "requested_version" = Some (VStr rv) →
      sc !! "latest_version" = Some (VStr lv) →
      (matches h self sc = Ok (FULL, child)
       ↔ mt = FULL ∧ ((V = "latest" ∧ rv = lv) ∨ V = rv))
      ∧ (mt = FULL → ¬ ((V = "latest" ∧ rv = lv) ∨ V = rv) →
         matches h self sc = Ok (PARTIAL, child)).
Proof.
  intros Hsup.
  assert (matches h self sc = version_gate h self sc (mt, child)) as ->
      by (unfold matches; by rewrite Hsup).
  destruct (version_gate_rule h self sc child) as [Hother Hfull].
  split; [apply Hother |].
  intros V rv lv HV Hrv Hlv.
  destruct (Hfull V rv lv HV Hrv Hlv) as [Hiff Hpart].
  destruct (decide (mt = FULL)) as [-> | Hne].
  - split; [| intros _; exact Hpart].
    rewrite Hiff. intuition.
  - rewrite (Hother mt Hne). split; [| done].
    split; [intros [= ->]; done | intros [? _]; done].
Qed.

Lemma C2_matching_rule_witness :
  let h := rg_heap router in
  let self := {| path := "/foo"; methods := ["GET"]; endpoint := foo_latest |} in
  let sc := with_versions "4" "4" (w_scope (http_get "/foo" [])) in
  matches h self sc = Ok (FULL, child_scope_of self)
  ↔ FULL = FULL ∧ (("latest" = "latest" ∧ "4" = "4") ∨ "latest" = "4").
Proof.
  intros h self sc.
  apply (proj2 (C2_matching_rule h self sc FULL (child_scope_of self) eq_refl)
           "latest" "4" "4");
    vm_compute; reflexivity.
Defined.

(** The rule together with the path matching of the parent class. *)
Example matches_examples :
  let r2 := {| path := "/foo"; methods := ["GET"]; endpoint := foo_v2 |} in
  let sc p v := with_versions v "4" (w_scope (http_get p [])) in
  let child : gmap string pyval := {[ "endpoint" := VObj foo_v2 "<function>" ]} in
  matches (rg_heap router) r2 (sc "/foo" "2") = Ok (FULL, child)
  ∧ matches (rg_heap router) r2 (sc "/foo" "02") = Ok (PARTIAL, child)
  ∧ matches (rg_heap router) r2 (sc "/foo" "4") = Ok (PARTIAL, child)
  ∧ matches (rg_heap router) r2 (sc "/bar" "2") = Ok (NONE, ∅).
Proof. repeat split; vm_compute; reflexivity. Qed.

Lemma handle_mismatch_nested h self sc tr (rv lv : pyval) :
  is_version_matching h self sc = Ok false →
  is_Some (sc !! "app") →
  sc !! "requested_version" = Some rv →
  sc !! "latest_version" = Some lv →
  handle h self {| w_scope := sc; w_trace := tr |}
  = ({| w_scope := sc; w_trace := tr |},
     Raise (HTTPException 406
              ("Requested version " +:+ Py.str rv
               +:+ " does not exist. Latest available version is "
               +:+ Py.str lv +:+ "."))).
Proof.
  intros Hm Happ Hrv Hlv. unfold handle. run_m. rewrite Hm. run_m.
  cbn [negb]. rewrite (bool_decide_eq_true_2 _ Happ).
  unfold not_acceptable_detail, Py.getitem. rewrite Hrv, Hlv. run_m.
  reflexivity.
Qed.

Lemma handle_mismatch_top h self sc tr :
  is_version_matching h self sc = Ok false →
  sc !! "app" = None →
  handle h self {| w_scope := sc; w_trace := tr |}
  = super_handle self
      {| w_scope := sc;
         w_trace := tr ++ [EResponse 406 (PlainText "Not Acceptable")] |}.
Proof.
  intros Hm Happ. unfold handle. run_m. rewrite Hm. run_m. cbn [negb].
  rewrite bool_decide_eq_false_2; [| rewrite Happ; by intros [? ?]].
  reflexivity.
Qed.

(** C6. On a version mismatch, a route called with an application in the
    scope (a nested component) raises the HTTP exception with status 406 and
    the message naming both versions, and emits nothing; a route called
    without one (the top level) emits the plain-text response
    "Not Acceptable" with status 406 itself, and goes on with the handling
    of the parent class. *)
Theorem C6_rejection_outcome h self sc tr (rv lv : pyval) :
  is_version_matching h self sc = Ok false →
  sc !! "requested_version" = Some rv →
  sc !! "latest_version" = Some lv →
  (is_Some (sc !! "app") →
   handle h self {| w_scope := sc; w_trace := tr |}
   = ({| w_scope := sc; w_trace := tr |},
      Raise (HTTPException 406
               ("Requested version " +:+ Py.str rv
                +:+ " does not exist. Latest available version is "
                +:+ Py.str lv +:+ "."))))
  ∧ (sc !! "app" = None →
     handle h self {| w_scope := sc; w_trace := tr |}
     = super_handle self
         {| w_scope := sc;
            w_trace := tr ++ [EResponse 406 (PlainText "Not Acceptable")] |}).
Proof.
  intros Hm Hrv Hlv. split; intros Happ.
  - by apply handle_mismatch_nested.
  - by apply handle_mismatch_top.
Qed.

Lemma C6_rejection_outcome_witness :
  let sc := with_versions "9" "4" (<["app" := VObj 0 "<FastAPI>"]>
                                     (w_scope (http_get "/foo" []))) in
  handle (rg_heap router) route_v1 {| w_scope := sc; w_trace := [] |}
  = ({| w_scope := sc; w_trace := [] |},
     Raise (HTTPException 406
              "Requested version 9 does not exist. Latest available version is 4.")).
Proof.
  intros sc.
  apply (proj1 (C6_rejection_outcome (rg_heap router) route_v1 sc []
                  (VStr "9") (VStr "4") eq_refl eq_refl eq_refl)).
  vm_compute. eauto.
Defined.

(** At the top level the mismatch response is followed by the endpoint
    whenever the method is allowed. *)
Lemma handle_top_mismatch_runs_endpoint h self sc tr mth :
  is_version_matching h self sc = Ok false →
  sc !! "app" = None →
  sc !! "method" = Some mth →
  Py.in_tuple mth (VStr <$> methods self) = true →
  handle h self {| w_scope := sc; w_trace := tr |}
  = ({| w_scope := sc;
        w_trace := tr ++ [EResponse 406 (PlainText "Not Acceptable");
                          EEndpoint (endpoint self)] |}, Ok tt).
Proof.
  intros Hm Happ Hmth Hin. rewrite handle_mismatch_top by done.
  unfold super_handle. run_m.
  destruct (methods self) as [|m0 ms] eqn:E; [done |].
  run_m. rewrite Hmth. run_m. rewrite Hin. run_m.
  by rewrite <- app_assoc.
Qed.

(** C1. A route handled at the top level (no application in the scope) for
    a request whose version does not match sends the 406 response and then
    still runs the endpoint: the handler body is executed. *)
Theorem C1_top_level_mismatch_runs_handler :
  let sc := with_versions "9" "4" (w_scope (http_get "/foo" [])) in
  let r := handle (rg_heap router) route_v1 {| w_scope := sc; w_trace := [] |} in
  is_version_matching (rg_heap router) route_v1 sc = Ok false
  ∧ sc !! "app" = None
  ∧ r.2 = Ok tt
  ∧ w_trace r.1 = [EResponse 406 (PlainText "Not Acceptable"); EEndpoint foo_v1].
Proof. repeat split; vm_compute; reflexivity. Qed.

(** C10. For a route whose endpoint function has no [__api_version__]
    attribute, reading [endpoint_version] raises [AttributeError]; so do the
    version test, the version part of [matches] on a full path match, and
    [handle], on every scope that carries a requested version. *)
Theorem C10_untagged_endpoint_fails h self sc tr child :
  attrs_of h (endpoint self) !! "__api_version__" = None →
  is_Some (sc !! "requested_version") →
  endpoint_version h self = Raise (AttributeError "__api_version__")
  ∧ is_version_matching h self sc = Raise (AttributeError "__api_version__")
  ∧ version_gate h self sc (FULL, child)
    = Raise (AttributeError "__api_version__")
  ∧ handle h self {| w_scope := sc; w_trace := tr |}
    = ({| w_scope := sc; w_trace := tr |},
       Raise (AttributeError "__api_version__")).
Proof.
  intros Hno [rv Hrv].
  assert (endpoint_version h self = Raise (AttributeError "__api_version__"))
    as Hev by (unfold endpoint_version, getattr; by rewrite Hno).
  assert (is_version_matching h self sc
          = Raise (AttributeError "__api_version__")) as Hm
      by (unfold is_version_matching, Py.getitem; by rewrite Hrv, Hev).
  split; [done |]. split; [done |]. split.
  - unfold version_gate. cbn [bool_decide orb].
    rewrite (bool_decide_eq_false_2 (FULL = NONE)) by done.
    rewrite (bool_decide_eq_false_2 (FULL = PARTIAL)) by done.
    cbn [orb]. by rewrite Hm.
  - unfold handle. run_m. by rewrite Hm.
Qed.

Lemma C10_untagged_endpoint_fails_witness :
  let sc := with_versions "2" "4" (w_scope (http_get "/foo" [])) in
  endpoint_version ∅ route_v1 = Raise (AttributeError "__api_version__")
  ∧ is_version_matching ∅ route_v1 sc
    = Raise (AttributeError "__api_version__")
  ∧ version_gate ∅ route_v1 sc (FULL, ∅)
    = Raise (AttributeError "__api_version__")
  ∧ handle ∅ route_v1 {| w_scope := sc; w_trace := [] |}
    = ({| w_scope := sc; w_trace := [] |},
       Raise (AttributeError "__api_version__")).
Proof.
  intros sc. apply (C10_untagged_endpoint_fails ∅ route_v1 sc [] ∅).
  - reflexivity.
  - vm_compute. eauto.
Defined.

(** * The extractor's footprint *)

Lemma store_group_frame mo sc tr :
  w_trace (store_group mo {| w_scope := sc; w_trace := tr |}).1 = tr
  ∧ ∀ k, k ≠ "requested_version" →
         w_scope (store_group mo {| w_scope := sc; w_trace := tr |}).1 !! k
         = sc !! k.
Proof.
  unfold store_group. destruct (1 <=? Re.mo_ngroups mo)%nat; [| done].
  destruct (Re.lookup_group 1 (Re.mo_caps mo)); [| done].
  run_m. split; [done |]. intros k Hk. by rewrite lookup_insert_ne.
Qed.

(** C9. Whatever the extractor does, it emits nothing and leaves every scope
    field other than [requested_version] and [latest_version] as it was; on
    a scope whose type is neither "http" nor "websocket" it changes nothing
    at all.  The wrapped application is then called on the resulting
    scope. *)
Theorem C9_extractor_frame self w :
  w_trace (mw_extract self w).1 = w_trace w
  ∧ (∀ k, k ≠ "requested_version" → k ≠ "latest_version" →
          w_scope (mw_extract self w).1 !! k = w_scope w !! k)
  ∧ (∀ ty, w_scope w !! "type" = Some ty →
           Py.in_tuple ty [VStr "http"; VStr "websocket"] = false →
           mw_extract self w = (w, Ok tt))
  ∧ mw_call self w
    = match mw_extract self w with
      | (w1, Ok _) => mw_app self w1
      | (w1, Raise e) => (w1, Raise e)
      end.
Proof.
  destruct w as [sc tr]. cbn [w_scope w_trace].
  assert (∀ sc1 : gmap string pyval, ∀ k,
            k ≠ "requested_version" → k ≠ "latest_version" →
            <["requested_version":=VStr (latest_version self)]>
              (<["latest_version":=VStr (latest_version self)]> sc1) !! k
            = sc1 !! k) as Hfr
      by (intros sc1 k ? ?; by rewrite !lookup_insert_ne).
  split; [| split; [| split]].
  - unfold mw_extract; run_m.
    destruct (sc !! "type") as [ty|]; [| done]; run_m.
    destruct (Py.in_tuple ty [VStr "http"; VStr "websocket"]); [| done].
    destruct (sc !! "headers") as [hv|]; [| done]; run_m.
    unfold Py.dict. destruct hv as [[|a s]|hs|i t]; run_m; try done.
    destruct (Py.dict_of_pairs hs !! "accept") as [value|]; [| done].
    destruct (Re.search (accept_regex self) (decode_latin1 value));
      try done.
    apply store_group_frame.
  - intros k Hk1 Hk2. unfold mw_extract; run_m.
    destruct (sc !! "type") as [ty|]; [| done]; run_m.
    destruct (Py.in_tuple ty [VStr "http"; VStr "websocket"]); [| done].
    destruct (sc !! "headers") as [hv|]; [| done]; run_m.
    unfold Py.dict. destruct hv as [[|a s]|hs|i t]; run_m; try done.
    + by apply Hfr.
    + destruct (Py.dict_of_pairs hs !! "accept") as [value|];
        [| by apply Hfr].
      destruct (Re.search (accept_regex self) (decode_latin1 value));
        try by apply Hfr.
      rewrite <- (Hfr sc k Hk1 Hk2). by apply store_group_frame.
  - intros ty Hty Hin. by apply mw_extract_other with ty.
  - reflexivity.
Qed.

Lemma C9_extractor_frame_witness :
  mw_extract (mw_init (mret tt) "mytestapp" "4")
    {| w_scope := {[ "type" := VStr "lifespan" ]}; w_trace := [] |}
  = ({| w_scope := {[ "type" := VStr "lifespan" ]}; w_trace := [] |}, Ok tt).
Proof.
  apply (proj1 (proj2 (proj2 (C9_extractor_frame
           (mw_init (mret tt) "mytestapp" "4")
           {| w_scope := {[ "type" := VStr "lifespan" ]}; w_trace := [] |})))
         (VStr "lifespan")); reflexivity.
Defined.

(** * The module's application *)

(** C3. On the application of the module (handlers for "1", "2", "3" and
    "latest" at /foo, latest version "4"): a request without an Accept
    header, and one that asks for version 4, run the handler declared
    "latest"; a request that asks for version 2 runs the handler declared
    "2"; a request that asks for version 9 gets status 406 with the
    message naming versions 9 and 4. *)
Theorem C3_example_application :
  getattr (rg_heap router) foo_latest "__api_version__" = Ok (VStr "latest")
  ∧ getattr (rg_heap router) foo_v2 "__api_version__" = Ok (VStr "2")
  ∧ outcome (app (http_get "/foo" [])) = ([EEndpoint foo_latest], Ok tt)
  ∧ outcome (app (http_get "/foo"
                    (accept "application/vnd.mytestapp.v4+json")))
    = ([EEndpoint foo_latest], Ok tt)
  ∧ outcome (app (http_get "/foo"
                    (accept "application/vnd.mytestapp.v2+json")))
    = ([EEndpoint foo_v2], Ok tt)
  ∧ outcome (app (http_get "/foo"
                    (accept "application/vnd.mytestapp.v9+json")))
    = ([EResponse 406
          (JsonDetail
             "Requested version 9 does not exist. Latest available version is 4.")],
       Ok tt).
Proof. repeat split; vm_compute; reflexivity. Qed.

(** * Version tags *)

(** C8 as stated fails: tagging the function of a registered route again
    changes what the route reports and how it matches. *)
Lemma C8_retag_is_observed :
  let h := rg_heap router in
  let sc := with_versions "1" "4" (w_scope (http_get "/foo" [])) in
  endpoint_version h route_v1 = Ok "1"
  ∧ is_version_matching h route_v1 sc = Ok true
  ∧ endpoint_version (version "2" foo_v1 h) route_v1 = Ok "2"
  ∧ is_version_matching (version "2" foo_v1 h) route_v1 sc = Ok false.
Proof. repeat split; vm_compute; reflexivity. Qed.

Lemma endpoint_version_version h self (v : string) :
  endpoint_version (version v (endpoint self) h) self = Ok v.
Proof.
  unfold endpoint_version, getattr, attrs_of, version.
  rewrite lookup_insert_eq. cbn [default from_option id].
  by rewrite lookup_insert_eq.
Qed.

Lemma endpoint_version_other h self g (w : string) :
  g ≠ endpoint self →
  endpoint_version (version w g h) self = endpoint_version h self.
Proof.
  intros Hg. unfold endpoint_version, getattr, attrs_of, version.
  by rewrite lookup_insert_ne.
Qed.

(** C8, amended.  [endpoint_version] reports the token written last to the
    endpoint function: the token of the registration, on every query, as
    long as that function is not tagged again (tagging other functions
    changes nothing), and the new token once it is. *)
Theorem C8_tag_is_last_written h f self (v : string) :
  endpoint self = f →
  endpoint_version (version v f h) self = Ok v
  ∧ (∀ g w, g ≠ f →
            endpoint_version (version w g (version v f h)) self = Ok v)
  ∧ (∀ w, endpoint_version (version w f (version v f h)) self = Ok w).
Proof.
  intros <-. split; [| split].
  - apply endpoint_version_version.
  - intros g w Hg. rewrite endpoint_version_other by done.
    apply endpoint_version_version.
  - intros w. apply endpoint_version_version.
Qed.

Lemma C8_tag_is_last_written_witness :
  endpoint_version (version "1" foo_v1 ∅) route_v1 = Ok "1"
  ∧ (∀ g w, g ≠ foo_v1 →
            endpoint_version (version w g (version "1" foo_v1 ∅)) route_v1
            = Ok "1")
  ∧ (∀ w, endpoint_version (version w foo_v1 (version "1" foo_v1 ∅)) route_v1
          = Ok w).
Proof. apply (C8_tag_is_last_written ∅ foo_v1 route_v1 "1"). reflexivity. Defined.

(** * Further properties of the extractor *)

Ltac run_m_in H :=
  cbv beta iota zeta delta
    [mbind mret M_bind M_ret result_bind result_ret scope_get
     get_scope lift raise scope_set scope_update emit w_scope w_trace
     Py.getitem fst snd] in H.

(** X1. With a vendor prefix free of special characters, the pattern the
    middleware builds matches an accept value exactly when the value is
    "application/vnd.", the prefix, ".v", one or more digits, "+" and any
    text; the match is anchored at the start and sensitive to case. *)
Theorem accept_pattern_literal app (p latest s : string) :
  plain p = true →
  (∃ mo, Re.search (accept_regex (mw_init app p latest)) s = Re.SearchMatch mo)
  ↔ vendor_form p s.
Proof. intros Hp. by apply accept_plain_iff. Qed.

Lemma accept_pattern_literal_witness :
  (∃ mo, Re.search (accept_regex (mw_init (mret tt) "mytestapp" "4"))
                   "application/vnd.mytestapp.v12+json" = Re.SearchMatch mo)
  ↔ vendor_form "mytestapp" "application/vnd.mytestapp.v12+json".
Proof. apply (accept_pattern_literal (mret tt) "mytestapp" "4"). reflexivity. Defined.

(** X2. With a vendor prefix free of special characters, an accept value
    made of "application/vnd.", the prefix, ".v", a non-empty string of
    digits, "+" and any text sets [requested_version] to exactly that
    string of digits (leading zeros and all), and [latest_version] to the
    configured one; nothing else in the scope changes. *)
Theorem extract_literal_header app p latest n suffix sc tr ty hs :
  plain p = true → n ≠ "" → digits n = true →
  sc !! "type" = Some ty →
  Py.in_tuple ty [VStr "http"; VStr "websocket"] = true →
  sc !! "headers" = Some (VHeaders hs) →
  Py.dict_of_pairs hs !! "accept"
  = Some ("application/vnd." +:+ p +:+ ".v" +:+ n +:+ "+" +:+ suffix) →
  mw_extract (mw_init app p latest) {| w_scope := sc; w_trace := tr |}
  = ({| w_scope := <["requested_version" := VStr n]>
                     (<["latest_version" := VStr latest]> sc);
        w_trace := tr |}, Ok tt).
Proof. intros. by apply (extract_plain_prefix app p latest n suffix sc tr ty hs). Qed.

Lemma extract_literal_header_witness :
  mw_extract (mw_init (mret tt) "mytestapp" "4")
    (http_get "/foo" (accept "application/vnd.mytestapp.v12+json"))
  = ({| w_scope := <["requested_version" := VStr "12"]>
                     (<["latest_version" := VStr "4"]>
                        (w_scope (http_get "/foo"
                           (accept "application/vnd.mytestapp.v12+json"))));
        w_trace := [] |}, Ok tt).
Proof.
  apply (extract_literal_header (mret tt) "mytestapp" "4" "12" "json" _ []
           (VStr "http") (accept "application/vnd.mytestapp.v12+json"));
    first [ reflexivity | discriminate ].
Defined.

(** The extractor on an http or websocket scope, whatever the headers value. *)
Lemma mw_extract_http_gen self sc tr ty hv :
  sc !! "type" = Some ty →
  Py.in_tuple ty [VStr "http"; VStr "websocket"] = true →
  sc !! "headers" = Some hv →
  mw_extract self {| w_scope := sc; w_trace := tr |}
  = match Py.dict hv with
    | Raise e => ({| w_scope := sc; w_trace := tr |}, Raise e)
    | Ok d =>
        let w1 := {| w_scope := with_versions (latest_version self)
                                  (latest_version self) sc;
                     w_trace := tr |} in
        match d !! "accept" with
        | Some value =>
            match Re.search (accept_regex self) (decode_latin1 value) with
            | Re.SearchError msg => (w1, Raise (ReError msg))
            | Re.SearchUnsupported => (w1, Raise OutsideModel)
            | Re.SearchNone => (w1, Ok tt)
            | Re.SearchMatch mo => store_group mo w1
            end
        | None => (w1, Ok tt)
        end
    end.
Proof.
  intros Hty Hin Hhs. unfold mw_extract. run_m. rewrite Hty. run_m.
  rewrite Hin. run_m. rewrite Hhs. run_m.
  destruct (Py.dict hv) as [d|e]; [| done]. run_m. unfold with_versions.
  destruct (d !! "accept") as [value|]; [| done].
  by destruct (Re.search (accept_regex self) (decode_latin1 value)).
Qed.

Lemma store_group_cases mo sc tr :
  store_group mo {| w_scope := sc; w_trace := tr |}
  = if (1 <=? Re.mo_ngroups mo)%nat then
      match Re.lookup_group 1 (Re.mo_caps mo) with
      | Some v => ({| w_scope := <["requested_version" := VStr v]> sc;
                      w_trace := tr |}, Ok tt)
      | None => ({| w_scope := sc; w_trace := tr |}, Ok tt)
      end
    else ({| w_scope := sc; w_trace := tr |}, Raise IndexError).
Proof.
  unfold store_group. destruct (1 <=? Re.mo_ngroups mo)%nat; [| done].
  by destruct (Re.lookup_group 1 (Re.mo_caps mo)).
Qed.

Lemma with_versions_absorb (x l y m : string) (sc : gmap string pyval) :
  with_versions x l (with_versions y m sc) = with_versions x l sc.
Proof.
  unfold with_versions. apply map_eq. intros k.
  destruct (decide (k = "requested_version")) as [-> | Hr];
    [by rewrite !lookup_insert_eq |].
  rewrite !(lookup_insert_ne _ "requested_version") by done.
  destruct (decide (k = "latest_version")) as [-> | Hl];
    [by rewrite !lookup_insert_eq |].
  rewrite !(lookup_insert_ne _ "latest_version") by done.
  by rewrite !lookup_insert_ne.
Qed.

Lemma with_versions_requested (x y l : string) (sc : gmap string pyval) :
  <["requested_version" := VStr x]> (with_versions y l sc)
  = with_versions x l sc.
Proof. unfold with_versions. by rewrite insert_insert_eq. Qed.

Lemma with_versions_other (x l k : string) (sc : gmap string pyval) :
  k ≠ "requested_version" → k ≠ "latest_version" →
  with_versions x l sc !! k = sc !! k.
Proof. intros. unfold with_versions. by rewrite !lookup_insert_ne. Qed.

(** A successful run of the extractor either left a scope of another type
    alone or wrote both version fields, [latest_version] from the
    configuration. *)
Lemma mw_extract_ok_shape self sc tr w1 :
  mw_extract self {| w_scope := sc; w_trace := tr |} = (w1, Ok tt) →
  ∃ ty, sc !! "type" = Some ty
        ∧ ((Py.in_tuple ty [VStr "http"; VStr "websocket"] = false
            ∧ w1 = {| w_scope := sc; w_trace := tr |})
           ∨ (Py.in_tuple ty [VStr "http"; VStr "websocket"] = true
              ∧ ∃ x hv d, sc !! "headers" = Some hv ∧ Py.dict hv = Ok d
                  ∧ w1 = {| w_scope := with_versions x (latest_version self) sc;
                            w_trace := tr |})).
Proof.
  intros H. destruct (sc !! "type") as [ty|] eqn:Hty.
  2: { unfold mw_extract in H. run_m_in H. rewrite Hty in H. done. }
  exists ty. split; [done |].
  destruct (Py.in_tuple ty [VStr "http"; VStr "websocket"]) eqn:Hin.
  2: { left. rewrite (mw_extract_other _ _ _ ty) in H by done.
       split; [done |]. by injection H as <-. }
  right. split; [done |].
  destruct (sc !! "headers") as [hv|] eqn:Hhv.
  2: { unfold mw_extract in H. run_m_in H. rewrite Hty in H. run_m_in H.
       rewrite Hin, Hhv in H. done. }
  rewrite (mw_extract_http_gen _ _ _ ty hv) in H by done.
  destruct (Py.dict hv) as [d|e] eqn:Hd; [| done]. cbv zeta in H.
  destruct (d !! "accept") as [value|].
  2: { injection H as <-. by exists (latest_version self), hv, d. }
  destruct (Re.search (accept_regex self) (decode_latin1 value)); try done.
  - injection H as <-. by exists (latest_version self), hv, d.
  - rewrite store_group_cases in H.
    destruct (1 <=? Re.mo_ngroups mo)%nat; [| done].
    destruct (Re.lookup_group 1 (Re.mo_caps mo)) as [v|]; injection H as <-.
    + exists v, hv, d. by rewrite with_versions_requested.
    + by exists (latest_version self), hv, d.
Qed.

Lemma foldl_insert_notin (k : string) (hs : list (bytes * bytes))
    (d : gmap bytes bytes) :
  k ∉ hs.*1 → foldl (λ d kv, <[kv.1 := kv.2]> d) d hs !! k = d !! k.
Proof.
  revert d. induction hs as [|[k' v'] hs IH]; intros d Hk; [done |].
  cbn [fmap list_fmap fst] in Hk. apply not_elem_of_cons in Hk as [Hne Hk].
  cbn [foldl]. rewrite IH by done. by rewrite lookup_insert_ne.
Qed.

Lemma dict_of_pairs_last (k v : bytes) (hs hs' : list (bytes * bytes)) :
  k ∉ hs'.*1 → Py.dict_of_pairs (hs ++ (k, v) :: hs') !! k = Some v.
Proof.
  intros Hk. unfold Py.dict_of_pairs. rewrite foldl_app. cbn [foldl].
  rewrite foldl_insert_notin by done. apply lookup_insert_eq.
Qed.

Lemma dict_of_pairs_none (k : bytes) (hs : list (bytes * bytes)) :
  k ∉ hs.*1 → Py.dict_of_pairs hs !! k = None.
Proof. intros Hk. unfold Py.dict_of_pairs. by rewrite foldl_insert_notin. Qed.

(** X3. When the header list carries several accept entries the last one
    decides: the result of the extractor and the two version fields are
    those of a request that carries that entry alone. *)
Theorem extract_last_accept_wins self sc tr ty (value : bytes)
    (hs hs' : list (bytes * bytes)) :
  sc !! "type" = Some ty →
  Py.in_tuple ty [VStr "http"; VStr "websocket"] = true →
  "accept" ∉ hs'.*1 →
  let r := mw_extract self
             {| w_scope := <["headers" := VHeaders (hs ++ ("accept", value) :: hs')]> sc;
                w_trace := tr |} in
  let r0 := mw_extract self
              {| w_scope := <["headers" := VHeaders [("accept", value)]]> sc;
                 w_trace := tr |} in
  r.2 = r0.2
  ∧ w_scope r.1 !! "requested_version" = w_scope r0.1 !! "requested_version"
  ∧ w_scope r.1 !! "latest_version" = w_scope r0.1 !! "latest_version".
Proof.
  intros Hty Hin Hk r r0. subst r r0.
  rewrite (mw_extract_http _ _ tr ty (hs ++ ("accept", value) :: hs'));
    [| by rewrite lookup_insert_ne | done | by rewrite lookup_insert_eq].
  rewrite (mw_extract_http _ _ tr ty [("accept", value)]);
    [| by rewrite lookup_insert_ne | done | by rewrite lookup_insert_eq].
  cbv zeta. rewrite dict_of_pairs_last by done.
  assert (Py.dict_of_pairs [("accept", value)] !! "accept" = Some value)
    as -> by apply lookup_insert_eq.
  destruct (Re.search (accept_regex self) (decode_latin1 value));
    rewrite ?store_group_cases; unfold with_versions; cbn [fst snd w_scope];
    try (by rewrite ?lookup_insert_eq,
           ?(lookup_insert_ne _ "requested_version" "latest_version"),
           ?lookup_insert_eq).
  destruct (1 <=? Re.mo_ngroups mo)%nat;
    [destruct (Re.lookup_group 1 (Re.mo_caps mo)) |];
    cbn [fst snd w_scope];
    by rewrite ?lookup_insert_eq,
         ?(lookup_insert_ne _ "requested_version" "latest_version"),
         ?lookup_insert_eq.
Qed.

Lemma extract_last_accept_wins_witness :
  let hs := [("accept", "application/vnd.mytestapp.v1+json");
             ("accept", "application/vnd.mytestapp.v2+json");
             ("host", "example.org")] in
  w_scope (mw_extract (mw_init (mret tt) "mytestapp" "4")
             (http_get "/foo" hs)).1 !! "requested_version"
  = Some (VStr "2").
Proof.
  intros hs.
  pose proof (extract_last_accept_wins (mw_init (mret tt) "mytestapp" "4")
                (w_scope (http_get "/foo" [])) [] (VStr "http")
                "application/vnd.mytestapp.v2+json"
                [("accept", "application/vnd.mytestapp.v1+json")]
                [("host", "example.org")] eq_refl eq_refl) as H.
  cbv zeta in H.
  assert ("accept" ∉ [("host", "example.org")].*1) as Hk
      by (cbn [fmap list_fmap fst]; apply not_elem_of_cons;
          split; [discriminate | apply not_elem_of_nil]).
  destruct (H Hk) as (_ & Hrv & _).
  etrans; [| etrans; [exact Hrv |]]; vm_compute; reflexivity.
Defined.

Lemma search_plain_cases (p s : string) :
  plain p = true →
  Re.search ("^application/vnd\." +:+ p +:+ "\.v([0-9]+)\+.*") s = Re.SearchNone
  ∨ ∃ n, n ≠ "" ∧ digits n = true
         ∧ Re.search ("^application/vnd\." +:+ p +:+ "\.v([0-9]+)\+.*") s
           = Re.SearchMatch {| Re.mo_ngroups := 1; Re.mo_caps := [(1, n)] |}.
Proof.
  intros Hp. unfold Re.search. rewrite parse_accept_regex by done.
  destruct (Re.search_from (accept_re p) 0 s) as [c|] eqn:E; [| by left].
  right. apply search_accept_inv in E as E'.
  destruct E' as (n & suffix & Hne & Hd & ->). exists n.
  rewrite search_accept_form in E by done. by injection E as <-.
Qed.

Lemma extract_plain_shape app p latest sc tr ty hs :
  plain p = true →
  sc !! "type" = Some ty →
  Py.in_tuple ty [VStr "http"; VStr "websocket"] = true →
  sc !! "headers" = Some (VHeaders hs) →
  ∃ v, mw_extract (mw_init app p latest) {| w_scope := sc; w_trace := tr |}
       = ({| w_scope := with_versions v latest sc; w_trace := tr |}, Ok tt)
       ∧ (v = latest ∨ (v ≠ "" ∧ digits v = true)).
Proof.
  intros Hp Hty Hin Hhs. rewrite (mw_extract_http _ sc tr ty hs) by done.
  cbv zeta. cbn [accept_regex latest_version mw_init].
  destruct (Py.dict_of_pairs hs !! "accept") as [value|];
    [| exists latest; by split; [| left]].
  destruct (search_plain_cases p (decode_latin1 value) Hp)
    as [-> | (n & Hne & Hd & ->)]; [exists latest; by split; [| left] |].
  exists n. rewrite store_group_version, with_versions_requested.
  split; [done | by right].
Qed.

(** X4. With a prefix free of special characters the extractor cannot fail
    on an http or websocket scope that carries a header list, and the
    requested version it leaves is the latest version or a non-empty string
    of digits: a client cannot ask for the token "latest" or any other
    text. *)
Theorem extract_plain_total app p latest sc tr ty hs :
  plain p = true →
  sc !! "type" = Some ty →
  Py.in_tuple ty [VStr "http"; VStr "websocket"] = true →
  sc !! "headers" = Some (VHeaders hs) →
  ∃ v, mw_extract (mw_init app p latest) {| w_scope := sc; w_trace := tr |}
       = ({| w_scope := with_versions v latest sc; w_trace := tr |}, Ok tt)
       ∧ (v = latest ∨ (v ≠ "" ∧ digits v = true)).
Proof. intros. by apply (extract_plain_shape app p latest sc tr ty hs). Qed.

Lemma extract_plain_total_witness :
  ∃ v, mw_extract (mw_init (mret tt) "mytestapp" "4")
         (http_get "/foo" (accept "application/vnd.mytestapp.vlatest+json"))
       = ({| w_scope := with_versions v "4"
                          (w_scope (http_get "/foo"
                             (accept "application/vnd.mytestapp.vlatest+json")));
             w_trace := [] |}, Ok tt)
       ∧ (v = "4" ∨ (v ≠ "" ∧ digits v = true)).
Proof.
  apply (extract_plain_total (mret tt) "mytestapp" "4" _ [] (VStr "http")
           (accept "application/vnd.mytestapp.vlatest+json"));
    reflexivity.
Defined.

(** X5. What an extractor writes does not depend on version fields already
    in the scope: after a successful run of one extractor, a second one
    (with any configuration) behaves as on the original scope.  Stacked
    extractors are decided by the innermost, and running the same one twice
    is the same as running it once. *)
Theorem extract_overrides self1 self2 w w1 :
  mw_extract self1 w = (w1, Ok tt) →
  mw_extract self2 w1 = mw_extract self2 w.
Proof.
  destruct w as [sc tr]. intros H.
  apply mw_extract_ok_shape in H
    as (ty & Hty & [[Hin ->] | (Hin & x & hv & d & Hhv & Hd & ->)]); [done |].
  rewrite (mw_extract_http_gen self2 _ tr ty hv);
    [| by rewrite with_versions_other | done
     | by rewrite with_versions_other].
  rewrite (mw_extract_http_gen self2 sc tr ty hv) by done.
  rewrite Hd. cbv zeta. by rewrite with_versions_absorb.
Qed.

Lemma extract_overrides_witness :
  mw_extract (mw_init (mret tt) "mytestapp" "4")
    (mw_extract (mw_init (mret tt) "other" "7")
       (http_get "/foo" (accept "application/vnd.mytestapp.v2+json"))).1
  = mw_extract (mw_init (mret tt) "mytestapp" "4")
      (http_get "/foo" (accept "application/vnd.mytestapp.v2+json")).
Proof.
  apply (extract_overrides (mw_init (mret tt) "other" "7")).
  vm_compute. reflexivity.
Defined.

(** X6. The pattern is compiled when a request is processed, not when the
    middleware is built: with a prefix that makes the pattern ill-formed,
    every http or websocket request that carries an accept entry ends in
    the pattern error, after both version fields were written and before
    the wrapped application is called; a request without one is served. *)
Theorem extract_bad_pattern self sc tr ty hs msg :
  Re.parse (accept_regex self) = Re.ReError msg →
  sc !! "type" = Some ty →
  Py.in_tuple ty [VStr "http"; VStr "websocket"] = true →
  sc !! "headers" = Some (VHeaders hs) →
  let w1 := {| w_scope := with_versions (latest_version self)
                            (latest_version self) sc;
               w_trace := tr |} in
  mw_call self {| w_scope := sc; w_trace := tr |}
  = if bool_decide (is_Some (Py.dict_of_pairs hs !! "accept"))
    then (w1, Raise (ReError msg))
    else mw_app self w1.
Proof.
  intros Hparse Hty Hin Hhs w1. unfold mw_call. run_m.
  rewrite (mw_extract_http _ sc tr ty hs) by done. cbv zeta.
  destruct (Py.dict_of_pairs hs !! "accept") as [value|].
  - rewrite bool_decide_eq_true_2 by eauto.
    unfold Re.search. by rewrite Hparse.
  - rewrite bool_decide_eq_false_2; [done |]. by intros [? ?].
Qed.

Lemma extract_bad_pattern_witness :
  mw_call (mw_init (emit (EEndpoint 0)) "(" "4")
    (http_get "/foo" (accept "application/vnd.(.v2+json"))
  = ({| w_scope := with_versions "4" "4"
                     (w_scope (http_get "/foo"
                                 (accept "application/vnd.(.v2+json")));
        w_trace := [] |},
     Raise (ReError "missing ), unterminated subpattern")).
Proof.
  apply (extract_bad_pattern (mw_init (emit (EEndpoint 0)) "(" "4") _ []
           (VStr "http") (accept "application/vnd.(.v2+json")
           "missing ), unterminated subpattern");
    vm_compute; reflexivity.
Defined.

(** * Further properties of the route and the decorator *)

(** X7. The version test after the extractor: once the extractor has
    succeeded on an http or websocket scope, the test on any tagged route
    raises nothing and follows the matching rule on the extracted
    version. *)
Theorem matching_after_extract self h route sc tr w1 ty (V : string) :
  mw_extract self {| w_scope := sc; w_trace := tr |} = (w1, Ok tt) →
  sc !! "type" = Some ty →
  Py.in_tuple ty [VStr "http"; VStr "websocket"] = true →
  endpoint_version h route = Ok V →
  ∃ rv : string,
    w_scope w1 !! "requested_version" = Some (VStr rv)
    ∧ w_scope w1 !! "latest_version" = Some (VStr (latest_version self))
    ∧ is_version_matching h route (w_scope w1)
      = Ok (bool_decide ((V = "latest" ∧ rv = latest_version self) ∨ V = rv)).
Proof.
  intros H Hty Hin HV.
  apply mw_extract_ok_shape in H
    as (ty' & Hty' & [[Hin' _] | (_ & x & hv & d & _ & _ & ->)]);
    [congruence |].
  exists x. cbn [w_scope]. unfold with_versions.
  assert (<["requested_version":=VStr x]>
            (<["latest_version":=VStr (latest_version self)]> sc)
          !! "requested_version" = Some (VStr x)) as Hrv
      by apply lookup_insert_eq.
  assert (<["requested_version":=VStr x]>
            (<["latest_version":=VStr (latest_version self)]> sc)
          !! "latest_version" = Some (VStr (latest_version self))) as Hlv
      by (rewrite lookup_insert_ne by done; apply lookup_insert_eq).
  split; [done |]. split; [done |].
  rewrite (is_version_matching_tagged h route _ V (VStr x)) by done.
  unfold Py.getitem. rewrite Hlv. run_m. unfold Py.eqb.
  destruct (decide (V = "latest")) as [HL|HL];
    destruct (decide (x = latest_version self)) as [Hx|Hx];
    destruct (decide (V = x)) as [HVx|HVx];
    rewrite ?(bool_decide_eq_true_2 _ HL), ?(bool_decide_eq_false_2 _ HL),
      ?(bool_decide_eq_true_2 _ Hx), ?(bool_decide_eq_false_2 _ Hx),
      ?(bool_decide_eq_true_2 _ HVx), ?(bool_decide_eq_false_2 _ HVx);
    cbn [orb]; f_equal; symmetry;
    first [ apply bool_decide_eq_true_2; intuition congruence
          | apply bool_decide_eq_false_2; intuition congruence ].
Qed.

Lemma matching_after_extract_witness :
  ∃ rv : string,
    w_scope (mw_extract (mw_init (mret tt) "mytestapp" "4")
               (http_get "/foo" [])).1 !! "requested_version"
    = Some (VStr rv)
    ∧ w_scope (mw_extract (mw_init (mret tt) "mytestapp" "4")
                 (http_get "/foo" [])).1 !! "latest_version"
      = Some (VStr "4")
    ∧ is_version_matching (rg_heap router)
        {| path := "/foo"; methods := ["GET"]; endpoint := foo_latest |}
        (w_scope (mw_extract (mw_init (mret tt) "mytestapp" "4")
                    (http_get "/foo" [])).1)
      = Ok (bool_decide (("latest" = "latest" ∧ rv = "4") ∨ "latest" = rv)).
Proof.
  apply (matching_after_extract (mw_init (mret tt) "mytestapp" "4")
           (rg_heap router) _ (w_scope (http_get "/foo" [])) []
           _ (VStr "http") "latest");
    vm_compute; reflexivity.
Defined.

(** X8. The decorator writes one attribute of one function: every other
    attribute of that function, and every attribute of every other
    function, reads as before. *)
Theorem version_frame h (v : string) f g name :
  g ≠ f ∨ name ≠ "__api_version__" →
  getattr (version v f h) g name = getattr h g name.
Proof.
  intros Hne. unfold getattr, attrs_of, version.
  destruct (decide (g = f)) as [-> | Hg].
  - destruct Hne as [? | Hn]; [done |].
    rewrite lookup_insert_eq. cbn [default from_option id].
    by rewrite lookup_insert_ne.
  - by rewrite lookup_insert_ne.
Qed.

Lemma version_frame_witness :
  getattr (version "9" foo_v1 (rg_heap router)) foo_v2 "__api_version__"
  = getattr (rg_heap router) foo_v2 "__api_version__".
Proof. apply version_frame. left. discriminate. Defined.

(** X9. Tagging two different functions gives the same heap in either
    order. *)
Theorem version_commute h (v w : string) f g :
  f ≠ g → version v f (version w g h) = version w g (version v f h).
Proof.
  intros Hne. unfold version, attrs_of.
  rewrite !lookup_insert_ne by done. by apply insert_insert_ne.
Qed.

Lemma version_commute_witness :
  version "1" foo_v1 (version "2" foo_v2 ∅)
  = version "2" foo_v2 (version "1" foo_v1 ∅).
Proof. apply version_commute. discriminate. Defined.

(** X10. The latest version is read only for a route declared "latest":
    on a scope without [latest_version], the test on such a route raises
    [KeyError], and on a route declared with any other version it answers
    by comparing the declared and the requested version. *)
Theorem matching_without_latest h route sc (V : string) rv :
  endpoint_version h route = Ok V →
  sc !! "requested_version" = Some rv →
  sc !! "latest_version" = None →
  is_version_matching h route sc
  = if bool_decide (V = "latest") then Raise (KeyError "latest_version")
    else Ok (Py.eqb (VStr V) rv).
Proof.
  intros HV Hrv Hlv. rewrite (is_version_matching_tagged h route sc V rv) by done.
  unfold Py.getitem. by rewrite Hlv.
Qed.

Lemma matching_without_latest_witness :
  is_version_matching (rg_heap router) route_v1
    {[ "requested_version" := VStr "1" ]}
  = Ok true.
Proof.
  apply (matching_without_latest (rg_heap router) route_v1
           {[ "requested_version" := VStr "1" ]} "1" (VStr "1"));
    reflexivity.
Defined.

(** X11. A route used without the extractor: on a scope that has no
    [requested_version] the version test raises [KeyError] for every
    route, tagged or not; so does [matches] whenever the parent class
    reports a full match for the path, and so does [handle], which then
    emits nothing and runs no endpoint. *)
Theorem route_without_extractor h route sc tr child :
  sc !! "requested_version" = None →
  is_version_matching h route sc = Raise (KeyError "requested_version")
  ∧ (super_matches route sc = Ok (FULL, child) →
     matches h route sc = Raise (KeyError "requested_version"))
  ∧ handle h route {| w_scope := sc; w_trace := tr |}
    = ({| w_scope := sc; w_trace := tr |},
       Raise (KeyError "requested_version")).
Proof.
  intros Hrv.
  assert (is_version_matching h route sc
          = Raise (KeyError "requested_version")) as Hm
      by (unfold is_version_matching, Py.getitem; by rewrite Hrv).
  split; [done |]. split.
  - intros Hsup. unfold matches. rewrite Hsup. run_m.
    unfold version_gate. cbn [bool_decide orb].
    rewrite (bool_decide_eq_false_2 (FULL = NONE)) by done.
    rewrite (bool_decide_eq_false_2 (FULL = PARTIAL)) by done.
    cbn [orb]. by rewrite Hm.
  - unfold handle. run_m. by rewrite Hm.
Qed.

Lemma route_without_extractor_witness :
  is_version_matching (rg_heap router) route_v1 (w_scope (http_get "/foo" []))
  = Raise (KeyError "requested_version")
  ∧ matches (rg_heap router) route_v1 (w_scope (http_get "/foo" []))
    = Raise (KeyError "requested_version")
  ∧ handle (rg_heap router) route_v1 (http_get "/foo" [])
    = (http_get "/foo" [], Raise (KeyError "requested_version")).
Proof.
  destruct (route_without_extractor (rg_heap router) route_v1
              (w_scope (http_get "/foo" [])) [] (child_scope_of route_v1)
              eq_refl) as (H1 & H2 & H3).
  split; [exact H1 |]. split; [| exact H3].
  apply H2. reflexivity.
Defined.

(** * The router over versioned routes *)

Lemma is_version_matching_agree h route (sc1 sc2 : gmap string pyval) :
  sc1 !! "requested_version" = sc2 !! "requested_version" →
  sc1 !! "latest_version" = sc2 !! "latest_version" →
  is_version_matching h route sc1 = is_version_matching h route sc2.
Proof.
  intros Hrv Hlv. unfold is_version_matching, Py.getitem. by rewrite Hrv, Hlv.
Qed.

Lemma child_union_lookup route (sc : gmap string pyval) (k : string) :
  k ≠ "endpoint" → (child_scope_of route ∪ sc) !! k = sc !! k.
Proof.
  intros Hk. unfold child_scope_of.
  rewrite lookup_union_r; [done |]. by rewrite lookup_singleton_ne.
Qed.

Lemma super_matches_http route sc (p : string) mth :
  sc !! "type" = Some (VStr "http") →
  sc !! "path" = Some (VStr p) →
  sc !! "method" = Some mth →
  super_matches route sc
  = Ok (if bool_decide (p = path route)
        then (if method_allowed route mth then FULL else PARTIAL,
              child_scope_of route)
        else (NONE, ∅)).
Proof.
  intros Hty Hp Hm. unfold super_matches, Py.getitem. rewrite Hty. run_m.
  cbn [Py.eqb]. rewrite bool_decide_eq_true_2 by done. rewrite Hp. run_m.
  cbn [Py.eqb]. destruct (bool_decide (p = path route)); [| done].
  unfold method_allowed, child_scope_of.
  destruct (methods route) as [|m0 ms]; [done |]. rewrite Hm. run_m.
  by destruct (Py.in_tuple mth (VStr <$> m0 :: ms)).
Qed.

Lemma version_gate_mismatch h route sc mt child :
  is_version_matching h route sc = Ok false →
  version_gate h route sc (mt, child)
  = Ok (match mt with NONE => NONE | _ => PARTIAL end, child).
Proof.
  intros Hm. unfold version_gate. destruct mt; try done.
  cbn [bool_decide orb].
  rewrite (bool_decide_eq_false_2 (FULL = NONE)) by done.
  rewrite (bool_decide_eq_false_2 (FULL = PARTIAL)) by done.
  cbn [orb]. by rewrite Hm.
Qed.

Lemma matches_mismatch h route sc (p : string) mth :
  sc !! "type" = Some (VStr "http") →
  sc !! "path" = Some (VStr p) →
  sc !! "method" = Some mth →
  is_version_matching h route sc = Ok false →
  matches h route sc
  = Ok (if bool_decide (p = path route) then (PARTIAL, child_scope_of route)
        else (NONE, ∅)).
Proof.
  intros Hty Hp Hmth Hm. unfold matches.
  rewrite (super_matches_http route sc p mth) by done. run_m.
  destruct (bool_decide (p = path route)).
  - rewrite version_gate_mismatch by done.
    by destruct (method_allowed route mth).
  - by rewrite version_gate_mismatch.
Qed.

Lemma matches_partial_inv h route sc cs :
  matches h route sc = Ok (PARTIAL, cs) → cs = child_scope_of route.
Proof.
  unfold matches. destruct (super_matches route sc) as [[mt child]|e] eqn:Hs;
    [| done].
  run_m. intros Hg.
  assert (child = cs ∧ mt ≠ NONE) as [-> Hmt].
  { unfold version_gate in Hg. destruct mt; try done.
    - run_m_in Hg. by injection Hg as ->.
    - cbn [bool_decide orb] in Hg.
      rewrite (bool_decide_eq_false_2 (FULL = NONE)) in Hg by done.
      rewrite (bool_decide_eq_false_2 (FULL = PARTIAL)) in Hg by done.
      cbn [orb] in Hg.
      destruct (is_version_matching h route sc) as [[|]|]; try done.
      run_m_in Hg. by injection Hg as ->. }
  unfold super_matches, Py.getitem in Hs.
  destruct (sc !! "type") as [ty|]; [| done]. run_m_in Hs.
  destruct (Py.eqb ty (VStr "http")); [| by injection Hs as <- _].
  destruct (sc !! "path") as [pv|]; [| done]. run_m_in Hs.
  destruct (Py.eqb pv (VStr (path route))); [| by injection Hs as <- _].
  destruct (methods route) as [|m0 ms]; [by injection Hs as _ <- |].
  destruct (sc !! "method") as [mth|]; [| done]. run_m_in Hs.
  by destruct (Py.in_tuple mth (VStr <$> m0 :: ms)); injection Hs as _ <-.
Qed.

(** When no route matches in full, the first route that matches in part
    handles the request. *)
Lemma router_first_partial_world h pre r0 post sc tr cs0 :
  Forall (λ r, ∃ cs, matches h r sc = Ok (NONE, cs)) pre →
  matches h r0 sc = Ok (PARTIAL, cs0) →
  Forall (λ r, ∃ mt cs, matches h r sc = Ok (mt, cs) ∧ mt ≠ FULL) post →
  router_app h (pre ++ r0 :: post) {| w_scope := sc; w_trace := tr |}
  = handle h r0 {| w_scope := cs0 ∪ sc; w_trace := tr |}.
Proof.
  intros Hpre H0 Hpost. unfold router_app.
  assert (∀ l partial,
            router_loop h (pre ++ l) partial
              {| w_scope := sc; w_trace := tr |}
            = router_loop h l partial
                {| w_scope := sc; w_trace := tr |}) as ->.
  { intros l. induction Hpre as [|r pre [cs Hr] Hpre IH]; intros partial;
      [done |].
    rewrite <- app_comm_cons. cbn [router_loop]. run_m. rewrite Hr. run_m.
    apply IH. }
  cbn [router_loop]. run_m. rewrite H0. run_m.
  induction Hpost as [|r post (mt & cs & Hr & Hne) Hpost IH]; [done |].
  cbn [router_loop]. run_m. rewrite Hr. run_m.
  destruct mt; [apply IH | apply IH | done].
Qed.

Lemma handle_after_update_nested h route sc tr (rv lv : pyval) :
  is_version_matching h route sc = Ok false →
  is_Some (sc !! "app") →
  sc !! "requested_version" = Some rv →
  sc !! "latest_version" = Some lv →
  handle h route {| w_scope := child_scope_of route ∪ sc; w_trace := tr |}
  = ({| w_scope := child_scope_of route ∪ sc; w_trace := tr |},
     Raise (HTTPException 406 (not_acceptable_message rv lv))).
Proof.
  intros Hm Happ Hrv Hlv.
  apply handle_mismatch_nested.
  - rewrite <- Hm. apply is_version_matching_agree;
      by rewrite child_union_lookup.
  - by rewrite child_union_lookup.
  - by rewrite child_union_lookup.
  - by rewrite child_union_lookup.
Qed.

Lemma router_version_unknown_world h pre r0 post sc tr cs0 (rv lv : pyval) :
  is_Some (sc !! "app") →
  sc !! "requested_version" = Some rv →
  sc !! "latest_version" = Some lv →
  Forall (λ r, ∃ cs, matches h r sc = Ok (NONE, cs)) pre →
  matches h r0 sc = Ok (PARTIAL, cs0) →
  is_version_matching h r0 sc = Ok false →
  Forall (λ r, ∃ mt cs, matches h r sc = Ok (mt, cs) ∧ mt ≠ FULL) post →
  router_app h (pre ++ r0 :: post) {| w_scope := sc; w_trace := tr |}
  = ({| w_scope := child_scope_of r0 ∪ sc; w_trace := tr |},
     Raise (HTTPException 406 (not_acceptable_message rv lv))).
Proof.
  intros Happ Hrv Hlv Hpre H0 Hm Hpost.
  rewrite (router_first_partial_world h pre r0 post sc tr cs0) by done.
  apply matches_partial_inv in H0 as ->.
  by apply handle_after_update_nested.
Qed.

(** X13. With an application in the scope: when no route matches the
    request in full, and the first route that matches it in part fails the
    version test, the request ends in the 406 exception that names the
    requested and the latest version; nothing is sent and no endpoint
    runs. *)
Theorem router_version_unknown h pre r0 post sc tr cs0 (rv lv : pyval) :
  is_Some (sc !! "app") →
  sc !! "requested_version" = Some rv →
  sc !! "latest_version" = Some lv →
  Forall (λ r, ∃ cs, matches h r sc = Ok (NONE, cs)) pre →
  matches h r0 sc = Ok (PARTIAL, cs0) →
  is_version_matching h r0 sc = Ok false →
  Forall (λ r, ∃ mt cs, matches h r sc = Ok (mt, cs) ∧ mt ≠ FULL) post →
  outcome (router_app h (pre ++ r0 :: post) {| w_scope := sc; w_trace := tr |})
  = (tr, Raise (HTTPException 406 (not_acceptable_message rv lv))).
Proof.
  intros. unfold outcome.
  by rewrite (router_version_unknown_world h pre r0 post sc tr cs0 rv lv).
Qed.

Lemma router_version_unknown_witness :
  let sc := with_versions "9" "4"
              (<["app" := VObj 0 "<FastAPI>"]> (w_scope (http_get "/foo" []))) in
  outcome (router_app (rg_heap router) (rg_routes router)
             {| w_scope := sc; w_trace := [] |})
  = ([], Raise (HTTPException 406
                  "Requested version 9 does not exist. Latest available version is 4.")).
Proof.
  intros sc.
  apply (router_version_unknown (rg_heap router) [] route_v1
           [ {| path := "/foo"; methods := ["GET"]; endpoint := foo_v2 |};
             {| path := "/foo"; methods := ["GET"]; endpoint := foo_v3 |};
             {| path := "/foo"; methods := ["GET"]; endpoint := foo_latest |} ]
           sc [] (child_scope_of route_v1) (VStr "9") (VStr "4")).
  - vm_compute. eauto.
  - reflexivity.
  - reflexivity.
  - constructor.
  - reflexivity.
  - reflexivity.
  - repeat constructor;
      eexists PARTIAL, _; (split; [reflexivity | discriminate]).
Defined.

Lemma matches_full_inv h route sc cs :
  matches h route sc = Ok (FULL, cs) →
  cs = child_scope_of route
  ∧ is_version_matching h route sc = Ok true
  ∧ (methods route = []
     ∨ ∃ mth, sc !! "method" = Some mth
              ∧ Py.in_tuple mth (VStr <$> methods route) = true).
Proof.
  unfold matches. destruct (super_matches route sc) as [[mt child]|e] eqn:Hs;
    [| done].
  run_m. intros Hg.
  assert (mt = FULL ∧ child = cs ∧ is_version_matching h route sc = Ok true)
    as (-> & -> & Hm).
  { unfold version_gate in Hg. destruct mt; try done.
    cbn [bool_decide orb] in Hg.
    rewrite (bool_decide_eq_false_2 (FULL = NONE)) in Hg by done.
    rewrite (bool_decide_eq_false_2 (FULL = PARTIAL)) in Hg by done.
    cbn [orb] in Hg.
    destruct (is_version_matching h route sc) as [[|]|]; try done.
    run_m_in Hg. by injection Hg as ->. }
  split; [| split; [done |]].
  - unfold super_matches, Py.getitem in Hs.
    destruct (sc !! "type") as [ty|]; [| done]. run_m_in Hs.
    destruct (Py.eqb ty (VStr "http")); [| done].
    destruct (sc !! "path") as [pv|]; [| done]. run_m_in Hs.
    destruct (Py.eqb pv (VStr (path route))); [| done].
    destruct (methods route) as [|m0 ms]; [by injection Hs as <- |].
    destruct (sc !! "method") as [mth|]; [| done]. run_m_in Hs.
    destruct (Py.in_tuple mth (VStr <$> m0 :: ms)); [| done].
    by injection Hs as <-.
  - unfold super_matches, Py.getitem in Hs.
    destruct (sc !! "type") as [ty|]; [| done]. run_m_in Hs.
    destruct (Py.eqb ty (VStr "http")); [| done].
    destruct (sc !! "path") as [pv|]; [| done]. run_m_in Hs.
    destruct (Py.eqb pv (VStr (path route))); [| done].
    destruct (methods route) as [|m0 ms] eqn:Hms; [by left |].
    destruct (sc !! "method") as [mth|]; [| done]. run_m_in Hs.
    destruct (Py.in_tuple mth (VStr <$> m0 :: ms)) eqn:Hin; [| done].
    right. by exists mth.
Qed.

Lemma router_first_full_match_world h pre route post sc tr cs :
  Forall (λ r, ∃ mt cs', matches h r sc = Ok (mt, cs') ∧ mt ≠ FULL) pre →
  matches h route sc = Ok (FULL, cs) →
  router_app h (pre ++ route :: post) {| w_scope := sc; w_trace := tr |}
  = ({| w_scope := child_scope_of route ∪ sc;
        w_trace := tr ++ [EEndpoint (endpoint route)] |}, Ok tt).
Proof.
  intros Hpre Hfull. unfold router_app.
  assert (∀ partial,
            router_loop h (pre ++ route :: post) partial
              {| w_scope := sc; w_trace := tr |}
            = handle h route {| w_scope := cs ∪ sc; w_trace := tr |}) as ->.
  { induction Hpre as [|r pre (mt & cs' & Hr & Hne) Hpre IH];
      intros partial.
    - cbn [Datatypes.app router_loop]. run_m. by rewrite Hfull.
    - rewrite <- app_comm_cons. cbn [router_loop]. run_m. rewrite Hr. run_m.
      destruct mt; [apply IH | apply IH | done]. }
  apply matches_full_inv in Hfull as (-> & Hm & Hmeth).
  unfold handle. run_m.
  rewrite (is_version_matching_agree h route _ sc)
    by (by rewrite child_union_lookup).
  rewrite Hm. run_m. cbn [negb]. unfold super_handle. run_m.
  destruct Hmeth as [-> | (mth & Hmth & Hin)]; [done |].
  destruct (methods route) as [|m0 ms] eqn:Hms; [done |]. run_m.
  rewrite child_union_lookup by done. rewrite Hmth. run_m. by rewrite Hin.
Qed.

(** X14. The first route, in the order of registration, that matches path,
    method and version handles the request: exactly its endpoint runs, the
    route itself sends nothing, and the routes declared after it (a second
    handler for the same path and version, say) are never consulted. *)
Theorem router_first_full_match h pre route post sc tr cs :
  Forall (λ r, ∃ mt cs', matches h r sc = Ok (mt, cs') ∧ mt ≠ FULL) pre →
  matches h route sc = Ok (FULL, cs) →
  outcome (router_app h (pre ++ route :: post)
             {| w_scope := sc; w_trace := tr |})
  = (tr ++ [EEndpoint (endpoint route)], Ok tt).
Proof.
  intros. unfold outcome.
  by rewrite (router_first_full_match_world h pre route post sc tr cs).
Qed.

Lemma router_first_full_match_witness :
  let sc := with_versions "2" "4"
              (<["app" := VObj 0 "<FastAPI>"]> (w_scope (http_get "/foo" []))) in
  let r2 := {| path := "/foo"; methods := ["GET"]; endpoint := foo_v2 |} in
  outcome (router_app (rg_heap router) (rg_routes router)
             {| w_scope := sc; w_trace := [] |})
  = ([EEndpoint foo_v2], Ok tt).
Proof.
  intros sc r2.
  apply (router_first_full_match (rg_heap router) [route_v1] r2
           [ {| path := "/foo"; methods := ["GET"]; endpoint := foo_v3 |};
             {| path := "/foo"; methods := ["GET"]; endpoint := foo_latest |} ]
           sc [] (child_scope_of r2)).
  - constructor; [| constructor].
    exists PARTIAL, (child_scope_of route_v1). split; [reflexivity | discriminate].
  - reflexivity.
Defined.

(** * The module's application, for every request of a kind *)

Lemma app_after_extract (p : string) hs w1 :
  mw_extract (mw_init (exception_middleware
                         (router_app (rg_heap router) (rg_routes router)))
                      "mytestapp" "4")
    {| w_scope := <["app" := VObj 0 "<FastAPI>"]> (w_scope (http_get p hs));
       w_trace := [] |}
  = (w1, Ok tt) →
  app (http_get p hs)
  = exception_middleware (router_app (rg_heap router) (rg_routes router)) w1.
Proof.
  intros H. unfold app, app_stack, mw_call. run_m.
  cbn [http_get w_scope w_trace]. cbn [http_get w_scope w_trace] in H.
  by rewrite H.
Qed.

Lemma digits_not_latest (n : string) : digits n = true → n ≠ "latest".
Proof. intros Hd ->. discriminate Hd. Qed.

(** X15. The application of the module on GET /foo, for every version a
    client can name: versions 1, 2 and 3 run their own handler, version 4
    runs the handler declared "latest", and every other digit string is
    answered with status 406 and the message that names it, without any
    handler running.  The text after the ['+'] plays no part. *)
Theorem app_dispatch_by_version (n suffix : string) :
  n ≠ "" → digits n = true →
  outcome (app (http_get "/foo"
                  (accept ("application/vnd." +:+ "mytestapp" +:+ ".v" +:+ n
                           +:+ "+" +:+ suffix))))
  = if bool_decide (n = "1") then ([EEndpoint foo_v1], Ok tt)
    else if bool_decide (n = "2") then ([EEndpoint foo_v2], Ok tt)
    else if bool_decide (n = "3") then ([EEndpoint foo_v3], Ok tt)
    else if bool_decide (n = "4") then ([EEndpoint foo_latest], Ok tt)
    else ([EResponse 406
             (JsonDetail
                ("Requested version " +:+ n
                 +:+ " does not exist. Latest available version is 4."))],
          Ok tt).
Proof.
  intros Hne Hd.
  set (value := "application/vnd." +:+ "mytestapp" +:+ ".v" +:+ n
                +:+ "+" +:+ suffix).
  set (sc0 := <["app" := VObj 0 "<FastAPI>"]>
                (w_scope (http_get "/foo" (accept value)))).
  rewrite (app_after_extract "/foo" (accept value)
             {| w_scope := with_versions n "4" sc0; w_trace := [] |}).
  2: { apply (extract_plain_prefix _ "mytestapp" "4" n suffix sc0 []
                (VStr "http") (accept value)); done. }
  destruct (decide (n = "1")) as [-> | H1]; [vm_compute; reflexivity |].
  destruct (decide (n = "2")) as [-> | H2]; [vm_compute; reflexivity |].
  destruct (decide (n = "3")) as [-> | H3]; [vm_compute; reflexivity |].
  destruct (decide (n = "4")) as [-> | H4]; [vm_compute; reflexivity |].
  rewrite !bool_decide_eq_false_2 by done.
  assert (∀ f (V : string),
            endpoint_version (rg_heap router)
              {| path := "/foo"; methods := ["GET"]; endpoint := f |} = Ok V →
            V ≠ n → (V = "latest" ∨ V ≠ "latest") →
            is_version_matching (rg_heap router)
              {| path := "/foo"; methods := ["GET"]; endpoint := f |}
              (with_versions n "4" sc0) = Ok false) as Hmis.
  { intros f V HV HVn HL.
    rewrite (is_version_matching_tagged _ _ _ V (VStr n));
      [| done | apply lookup_insert_eq].
    unfold Py.getitem, with_versions.
    rewrite lookup_insert_ne by done. rewrite lookup_insert_eq. run_m.
    cbn [Py.eqb]. rewrite (bool_decide_eq_false_2 (V = n)) by done.
    rewrite (bool_decide_eq_false_2 (n = "4")) by done.
    by destruct (bool_decide (V = "latest")). }
  unfold exception_middleware, outcome.
  change (rg_routes router)
    with ([] ++ route_v1
          :: [ {| path := "/foo"; methods := ["GET"]; endpoint := foo_v2 |};
               {| path := "/foo"; methods := ["GET"]; endpoint := foo_v3 |};
               {| path := "/foo"; methods := ["GET"]; endpoint := foo_latest |} ]).
  pose proof (digits_not_latest n Hd) as HnL.
  assert (∀ f (V : string),
            endpoint_version (rg_heap router)
              {| path := "/foo"; methods := ["GET"]; endpoint := f |} = Ok V →
            V ≠ n → (V = "latest" ∨ V ≠ "latest") →
            matches (rg_heap router)
              {| path := "/foo"; methods := ["GET"]; endpoint := f |}
              (with_versions n "4" sc0)
            = Ok (PARTIAL,
                  child_scope_of
                    {| path := "/foo"; methods := ["GET"]; endpoint := f |}))
    as Hpart.
  { intros f V HV HVn HL.
    rewrite (matches_mismatch _ _ _ "/foo" (VStr "GET"));
      [done | by rewrite with_versions_other | by rewrite with_versions_other
       | by rewrite with_versions_other | by apply (Hmis f V)]. }
  rewrite (router_version_unknown_world (rg_heap router) [] route_v1
             [ {| path := "/foo"; methods := ["GET"]; endpoint := foo_v2 |};
               {| path := "/foo"; methods := ["GET"]; endpoint := foo_v3 |};
               {| path := "/foo"; methods := ["GET"]; endpoint := foo_latest |} ]
             (with_versions n "4" sc0) [] (child_scope_of route_v1)
             (VStr n) (VStr "4")).
  - reflexivity.
  - rewrite with_versions_other by done. unfold sc0.
    rewrite lookup_insert_eq. eauto.
  - apply lookup_insert_eq.
  - unfold with_versions. rewrite lookup_insert_ne by done.
    apply lookup_insert_eq.
  - constructor.
  - by apply (Hpart foo_v1 "1"); [| | right].
  - by apply (Hmis foo_v1 "1"); [| | right].
  - repeat constructor; eexists PARTIAL, _; (split; [| discriminate]).
    + by apply (Hpart foo_v2 "2"); [| | right].
    + by apply (Hpart foo_v3 "3"); [| | right].
    + by apply (Hpart foo_latest "latest"); [| | left].
Qed.

Lemma app_dispatch_by_version_witness :
  outcome (app (http_get "/foo"
                  (accept "application/vnd.mytestapp.v10+json")))
  = ([EResponse 406
        (JsonDetail
           "Requested version 10 does not exist. Latest available version is 4.")],
     Ok tt).
Proof.
  apply (app_dispatch_by_version "10" "json"); [discriminate | reflexivity].
Defined.

(** X17. A scope without a type, or an http or websocket scope without
    headers, ends the middleware in [KeyError]: nothing was written to the
    scope yet and the wrapped application is not called. *)
Theorem extract_missing_keys self sc tr :
  (sc !! "type" = None →
   mw_call self {| w_scope := sc; w_trace := tr |}
   = ({| w_scope := sc; w_trace := tr |}, Raise (KeyError "type")))
  ∧ (∀ ty, sc !! "type" = Some ty →
           Py.in_tuple ty [VStr "http"; VStr "websocket"] = true →
           sc !! "headers" = None →
           mw_call self {| w_scope := sc; w_trace := tr |}
           = ({| w_scope := sc; w_trace := tr |}, Raise (KeyError "headers"))).
Proof.
  split.
  - intros Hty. unfold mw_call, mw_extract. run_m. by rewrite Hty.
  - intros ty Hty Hin Hhs. unfold mw_call, mw_extract. run_m.
    rewrite Hty. run_m. rewrite Hin. run_m. by rewrite Hhs.
Qed.

Lemma extract_missing_keys_witness :
  mw_call (mw_init (emit (EEndpoint 0)) "mytestapp" "4")
    {| w_scope := {[ "type" := VStr "websocket" ]}; w_trace := [] |}
  = ({| w_scope := {[ "type" := VStr "websocket" ]}; w_trace := [] |},
     Raise (KeyError "headers")).
Proof.
  apply (proj2 (extract_missing_keys
                  (mw_init (emit (EEndpoint 0)) "mytestapp" "4")
                  {[ "type" := VStr "websocket" ]} [])
           (VStr "websocket")); reflexivity.
Defined.

(** X18. With a vendor prefix free of special characters the fallback is
    silent for every value outside the literal shape: when the header list
    has no accept entry, or its accept value is not "application/vnd.", the
    prefix, ".v", digits, "+" and any text (another prefix, no digits, no
    ['+']), the extractor raises nothing and leaves both version fields
    equal to the configured latest version. *)
Theorem fallback_plain_prefix app p latest sc tr ty hs :
  plain p = true →
  sc !! "type" = Some ty →
  Py.in_tuple ty [VStr "http"; VStr "websocket"] = true →
  sc !! "headers" = Some (VHeaders hs) →
  (Py.dict_of_pairs hs !! "accept" = None
   ∨ ∃ value, Py.dict_of_pairs hs !! "accept" = Some value
              ∧ ¬ vendor_form p (decode_latin1 value)) →
  mw_extract (mw_init app p latest) {| w_scope := sc; w_trace := tr |}
  = ({| w_scope := <["requested_version" := VStr latest]>
                     (<["latest_version" := VStr latest]> sc);
        w_trace := tr |}, Ok tt).
Proof.
  intros Hp Hty Hin Hhs Hacc.
  apply (fallback_on_no_match (mw_init app p latest) sc tr ty hs Hty Hin Hhs).
  destruct Hacc as [Hnone | (value & Hv & Hnf)]; [by left |].
  right. exists value. split; [done |].
  cbn [accept_regex mw_init]. by apply search_plain_none.
Qed.

Lemma fallback_plain_prefix_witness :
  mw_extract (mw_init (mret tt) "mytestapp" "4")
    (http_get "/foo" (accept "application/vnd.other.v2+json"))
  = ({| w_scope := <["requested_version" := VStr "4"]>
                     (<["latest_version" := VStr "4"]>
                        (w_scope (http_get "/foo"
                           (accept "application/vnd.other.v2+json"))));
        w_trace := [] |}, Ok tt).
Proof.
  apply (fallback_plain_prefix (mret tt) "mytestapp" "4" _ [] (VStr "http")
           (accept "application/vnd.other.v2+json"));
    try reflexivity.
  right. exists "application/vnd.other.v2+json". split; [reflexivity |].
  intros (n & suffix & _ & _ & H). vm_compute in H. discriminate H.
Defined.
